(** * GitButler virtual-branch data model ([app/src/lib/vbranches/types.ts])

    A shallow embedding of the commit / branch model classes and of the
    forge-URL resolution of [BaseBranch], with the properties of the derived
    getters proved over it.

    Conventions of the embedding:
    - a JavaScript [string] is a [string]; the empty string is the only falsy
      one;
    - an optional field ([x?: T], [T | undefined]) is an [option];
    - a [Date] is its time value, [None] standing for the NaN of an invalid
      date;
    - a call that can throw returns a [result];
    - the two libraries the module calls into, the remote-URL parser
      ([git-url-parse]) and the IPv4 pattern of [$lib/utils/url], are taken as
      parameters of the [Forge] section. *)

From Stdlib Require Import ZArith Bool Ascii String.
From stdpp Require Import base tactics option list strings.

Local Open Scope Z_scope.

(** ** JavaScript primitives *)

Module Js.

(** Errors that the modelled code can raise. *)
Inductive error : Type :=
| TypeError          (* property read on [undefined] *)
| UrlParseError.     (* the remote-URL parser rejected its input *)

Inductive result (A : Type) : Type :=
| Ok (a : A)
| Throw (e : error).
Arguments Ok {A} a.
Arguments Throw {A} e.

Definition bind {A B} (r : result A) (k : A -> result B) : result B :=
  match r with
  | Ok a => k a
  | Throw e => Throw e
  end.

Definition throws {A} (r : result A) : Prop := exists e, r = Throw e.

(** Truthiness of a string value: every string but [""]. *)
Definition truthy (s : string) : bool :=
  match s with
  | EmptyString => false
  | String _ _ => true
  end.

(** [a === b] on strings. *)
Definition strict_eq (a b : string) : bool := bool_decide (a = b).

(** [s.startsWith(p)] *)
Definition startsWith (s p : string) : bool := String.prefix p s.

(** [s.slice(n)] for a non-negative [n]. *)
Fixpoint slice (s : string) (n : nat) : string :=
  match n, s with
  | O, _ => s
  | S _, EmptyString => EmptyString
  | S n', String _ s' => slice s' n'
  end.

(** [s.includes(p)] *)
Fixpoint includes (s p : string) : bool :=
  if String.prefix p s then true
  else match s with
       | EmptyString => false
       | String _ s' => includes s' p
       end.

(** [s.replace(pat, rep)] with a string pattern: only the first occurrence
    of [pat] is replaced, wherever it stands in [s]. *)
Fixpoint replace (s pat rep : string) : string :=
  if String.prefix pat s then rep +:+ slice s (String.length pat)
  else match s with
       | EmptyString => EmptyString
       | String c s' => String c (replace s' pat rep)
       end.

(** [s.split(sep)] for a one-character separator. *)
Fixpoint split (s : string) (sep : ascii) : list string :=
  match s with
  | EmptyString => [EmptyString]
  | String c s' =>
      if bool_decide (c = sep) then EmptyString :: split s' sep
      else match split s' sep with
           | [] => [String c EmptyString]
           | w :: ws => String c w :: ws
           end
  end.

(** [parts.join(sep)] *)
Definition join (parts : list string) (sep : string) : string :=
  String.concat sep parts.

(** [arr[i]] for an arbitrary integer index: [undefined] out of range. *)
Definition index {A} (arr : list A) (i : Z) : option A :=
  if i <? 0 then None else arr !! Z.to_nat i.

(** Interpolation of a possibly undefined string in a template literal. *)
Definition interp (o : option string) : string :=
  match o with
  | Some s => s
  | None => "undefined"
  end.

(** A [Date]: its time value in milliseconds since the epoch, or [None] for
    an invalid date. *)
Record Date : Type := mkDate { timeValue : option Z }.

Definition maxTime : Z := 8640000000000000.

(** [new Date(v)] for an integral number [v]: the time value is [v] when it
    lies in the representable range and NaN otherwise (TimeClip). *)
Definition newDate (v : Z) : Date :=
  mkDate (if Z.abs v <=? maxTime then Some v else None).

End Js.

Import Js.

(** ** Commits *)

Record Author : Type := mkAuthor {
  Author_email : option string;
  Author_name : option string;
  Author_gravatarUrl : option string;
  Author_isBot : option bool
}.

Inductive CommitStatus : Type :=
| local
| localAndRemote
| integrated
| remote.

(** [Commit] and [RemoteCommit] refer to each other through [relatedTo]; the
    [files] of a commit are left out, no getter of the class reads them. *)
#[warnings="-register-all"]
Inductive Commit : Type := mkCommit {
  Commit_id : string;
  Commit_author : Author;
  Commit_description : string;
  Commit_createdAt : Date;
  Commit_isRemote : bool;
  Commit_isIntegrated : bool;
  Commit_parentIds : list string;
  Commit_branchId : string;
  Commit_changeId : string;
  Commit_isSigned : bool;
  Commit_relatedTo : option RemoteCommit;
  Commit_prev : option Commit;
  Commit_next : option Commit
}
with RemoteCommit : Type := mkRemoteCommit {
  RemoteCommit_id : string;
  RemoteCommit_author : Author;
  RemoteCommit_description : string;
  RemoteCommit_createdAt : Date;
  RemoteCommit_changeId : string;
  RemoteCommit_isSigned : bool;
  RemoteCommit_parentIds : list string;
  RemoteCommit_prev : option RemoteCommit;
  RemoteCommit_next : option RemoteCommit;
  RemoteCommit_relatedTo : option Commit
}.

(** [get isLocal()] of [Commit] *)
Definition Commit_isLocal (this : Commit) : bool :=
  negb (Commit_isRemote this) && negb (Commit_isIntegrated this).

(** [get status()] of [Commit] *)
Definition Commit_status (this : Commit) : CommitStatus :=
  if Commit_isIntegrated this then integrated
  else if Commit_isRemote this
          && match Commit_relatedTo this with
             | None => true
             | Some r => strict_eq (Commit_id this) (RemoteCommit_id r)
             end
  then localAndRemote
  else local.

(** [get isLocal()] of [RemoteCommit] *)
Definition RemoteCommit_isLocal (this : RemoteCommit) : bool := false.

(** [get status()] of [RemoteCommit] *)
Definition RemoteCommit_status (this : RemoteCommit) : CommitStatus := remote.

(** [type AnyCommit = Commit | RemoteCommit] *)
Inductive AnyCommit : Type :=
| ofCommit (c : Commit)
| ofRemoteCommit (r : RemoteCommit).

Definition AnyCommit_id (a : AnyCommit) : string :=
  match a with
  | ofCommit c => Commit_id c
  | ofRemoteCommit r => RemoteCommit_id r
  end.

Definition AnyCommit_changeId (a : AnyCommit) : string :=
  match a with
  | ofCommit c => Commit_changeId c
  | ofRemoteCommit r => RemoteCommit_changeId r
  end.

Definition AnyCommit_status (a : AnyCommit) : CommitStatus :=
  match a with
  | ofCommit c => Commit_status c
  | ofRemoteCommit r => RemoteCommit_status r
  end.

(** [commitCompare(left, right)] *)
Definition commitCompare (left right : AnyCommit) : bool :=
  if strict_eq (AnyCommit_id left) (AnyCommit_id right) then true
  else if truthy (AnyCommit_changeId left)
          && truthy (AnyCommit_changeId right)
          && strict_eq (AnyCommit_changeId left) (AnyCommit_changeId right)
  then true
  else false.

(** ** Deserialization of commits

    The backend payloads carry [createdAt] as a number; the [@Transform]
    attached to the field turns it into a [Date]. *)

Record CommitPayload : Type := mkCommitPayload {
  CommitPayload_id : string;
  CommitPayload_author : Author;
  CommitPayload_description : string;
  CommitPayload_createdAt : Z;
  CommitPayload_isRemote : bool;
  CommitPayload_isIntegrated : bool;
  CommitPayload_parentIds : list string;
  CommitPayload_branchId : string;
  CommitPayload_changeId : string;
  CommitPayload_isSigned : bool
}.

Record RemoteCommitPayload : Type := mkRemoteCommitPayload {
  RemoteCommitPayload_id : string;
  RemoteCommitPayload_author : Author;
  RemoteCommitPayload_description : string;
  RemoteCommitPayload_createdAt : Z;
  RemoteCommitPayload_changeId : string;
  RemoteCommitPayload_isSigned : bool;
  RemoteCommitPayload_parentIds : list string
}.

(** [@Transform((obj) => new Date(obj.value))] on [Commit.createdAt] *)
Definition Commit_createdAt_transform (value : Z) : Date := newDate value.

(** [@Transform((obj) => new Date(obj.value * 1000))] on
    [RemoteCommit.createdAt] *)
Definition RemoteCommit_createdAt_transform (value : Z) : Date :=
  newDate (value * 1000).

(** [plainToInstance(Commit, p)]: the links [relatedTo], [prev] and [next] are
    not part of the payload and start undefined. *)
Definition plainToInstance_Commit (p : CommitPayload) : Commit :=
  {| Commit_id := CommitPayload_id p;
     Commit_author := CommitPayload_author p;
     Commit_description := CommitPayload_description p;
     Commit_createdAt := Commit_createdAt_transform (CommitPayload_createdAt p);
     Commit_isRemote := CommitPayload_isRemote p;
     Commit_isIntegrated := CommitPayload_isIntegrated p;
     Commit_parentIds := CommitPayload_parentIds p;
     Commit_branchId := CommitPayload_branchId p;
     Commit_changeId := CommitPayload_changeId p;
     Commit_isSigned := CommitPayload_isSigned p;
     Commit_relatedTo := None;
     Commit_prev := None;
     Commit_next := None |}.

(** [plainToInstance(RemoteCommit, p)] *)
Definition plainToInstance_RemoteCommit (p : RemoteCommitPayload) : RemoteCommit :=
  {| RemoteCommit_id := RemoteCommitPayload_id p;
     RemoteCommit_author := RemoteCommitPayload_author p;
     RemoteCommit_description := RemoteCommitPayload_description p;
     RemoteCommit_createdAt :=
       RemoteCommit_createdAt_transform (RemoteCommitPayload_createdAt p);
     RemoteCommit_changeId := RemoteCommitPayload_changeId p;
     RemoteCommit_isSigned := RemoteCommitPayload_isSigned p;
     RemoteCommit_parentIds := RemoteCommitPayload_parentIds p;
     RemoteCommit_prev := None;
     RemoteCommit_next := None;
     RemoteCommit_relatedTo := None |}.

(** ** Remote branch data *)

Record RemoteBranchData : Type := mkRemoteBranchData {
  RemoteBranchData_sha : string;
  RemoteBranchData_name : string;
  RemoteBranchData_upstream : option string;
  RemoteBranchData_behind : Z;
  RemoteBranchData_commits : list RemoteCommit;
  RemoteBranchData_isMergeable : option bool;
  RemoteBranchData_forkPoint : option string
}.

(** [arr.findIndex(p)]: the index of the first element satisfying [p], [-1]
    when there is none. *)
Fixpoint findIndex_from {A} (p : A -> bool) (arr : list A) (i : Z) : Z :=
  match arr with
  | [] => -1
  | a :: arr' => if p a then i else findIndex_from p arr' (i + 1)
  end.

Definition findIndex {A} (p : A -> bool) (arr : list A) : Z :=
  findIndex_from p arr 0.

(** [arr.filter((a, index) => p(a, index))] *)
Fixpoint filter_from {A} (p : A -> Z -> bool) (arr : list A) (i : Z) : list A :=
  match arr with
  | [] => []
  | a :: arr' =>
      if p a i then a :: filter_from p arr' (i + 1)
      else filter_from p arr' (i + 1)
  end.

Definition filter_indexed {A} (p : A -> Z -> bool) (arr : list A) : list A :=
  filter_from p arr 0.

(** [a.email === author.email] *)
Definition same_email (author a : Author) : bool :=
  bool_decide (Author_email a = Author_email author).

(** [get ahead()] *)
Definition RemoteBranchData_ahead (this : RemoteBranchData) : Z :=
  Z.of_nat (length (RemoteBranchData_commits this)).

(** [get lastCommitTs()]: [this.commits[0]?.createdAt] *)
Definition RemoteBranchData_lastCommitTs (this : RemoteBranchData) : option Date :=
  match index (RemoteBranchData_commits this) 0 with
  | Some c => Some (RemoteCommit_createdAt c)
  | None => None
  end.

(** [get firstCommitAt()]: [this.commits[this.commits.length - 1].createdAt],
    the property read throws when the element is [undefined]. *)
Definition RemoteBranchData_firstCommitAt (this : RemoteBranchData) : result Date :=
  match index (RemoteBranchData_commits this)
              (Z.of_nat (length (RemoteBranchData_commits this)) - 1) with
  | Some c => Ok (RemoteCommit_createdAt c)
  | None => Throw TypeError
  end.

(** [get authors()] *)
Definition RemoteBranchData_authors (this : RemoteBranchData) : list Author :=
  let allAuthors := map RemoteCommit_author (RemoteBranchData_commits this) in
  let uniqueAuthors :=
    filter_indexed
      (fun author index => findIndex (same_email author) allAuthors =? index)
      allAuthors in
  uniqueAuthors.

(** [get displayName()] *)
Definition RemoteBranchData_displayName (this : RemoteBranchData) : string :=
  replace (replace (replace (RemoteBranchData_name this) "refs/remotes/" "")
                   "origin/" "")
          "refs/heads/" "".

(** The reading of [displayName] under which each of the three strings is
    removed only where it is a leading prefix, for comparison with the getter
    above. *)
Definition strip_prefix (s p : string) : string :=
  if startsWith s p then slice s (String.length p) else s.

Definition displayName_by_prefix (name : string) : string :=
  strip_prefix (strip_prefix (strip_prefix name "refs/remotes/") "origin/")
               "refs/heads/".

(** ** Base branch and forge resolution *)

(** [enum Forge]; [ForgeType] is the type of its keys. *)
Inductive ForgeType : Type :=
| Unknown
| GitHub
| GitLab
| Bitbucket
| AzureDevOps.

(** The fields of a parsed remote URL ([GitUrlParse.GitUrl]) read here. *)
Record GitUrl : Type := mkGitUrl {
  GitUrl_protocol : string;
  GitUrl_resource : string;
  GitUrl_user : string;
  GitUrl_organization : string;
  GitUrl_owner : string;
  GitUrl_name : string
}.

(** The arrow functions stored in [generateCommitUrl], one constructor per
    assignment in [afterTransform]. They read [this.commitBaseUrl] when they
    are called. *)
Inductive CommitUrlGenerator : Type :=
| commits_path        (* `${this.commitBaseUrl}/commits/${commitId}` *)
| dash_commit_path    (* `${this.commitBaseUrl}/-/commit/${commitId}` *)
| commit_path.        (* `${this.commitBaseUrl}/commit/${commitId}` *)

(** The arrow functions stored in [generateBranchUrl]; the fork comparison
    captures [pushUsername] and [pushRepoName]. *)
Inductive BranchUrlGenerator : Type :=
| fork_compare (pushUsername pushRepoName : string)
| branch_dest
| branch_compare_versions
| compare_path.

Record BaseBranch : Type := mkBaseBranch {
  branchName : string;
  remoteName : string;
  pushRemoteName : string;
  baseSha : string;
  currentSha : string;
  behind : Z;
  upstreamCommits : list RemoteCommit;
  recentCommits : list RemoteCommit;
  lastFetchedMs : option Z;
  forgeType : option ForgeType;
  remoteUrl : string;
  repoBaseUrl : option string;
  gitPushRemote : option GitUrl;
  commitBaseUrl : option string;
  actualPushRemoteName : option string;
  generateCommitUrl : option CommitUrlGenerator;
  generateBranchUrl : option BranchUrlGenerator
}.

Record BaseBranchPayload : Type := mkBaseBranchPayload {
  BaseBranchPayload_branchName : string;
  BaseBranchPayload_remoteName : string;
  BaseBranchPayload_pushRemoteName : string;
  BaseBranchPayload_baseSha : string;
  BaseBranchPayload_currentSha : string;
  BaseBranchPayload_behind : Z;
  BaseBranchPayload_upstreamCommits : list RemoteCommitPayload;
  BaseBranchPayload_recentCommits : list RemoteCommitPayload;
  BaseBranchPayload_lastFetchedMs : option Z;
  BaseBranchPayload_remoteUrl : string;
  BaseBranchPayload_pushRemoteUrl : option string
}.

(** [getForgeType(repoBaseUrl)]: the [switch (true)] takes the first case
    whose test holds. *)
Definition getForgeType (repoBaseUrl : string) : ForgeType :=
  if includes repoBaseUrl "github.com" then GitHub
  else if includes repoBaseUrl "gitlab.com" then GitLab
  else if includes repoBaseUrl "bitbucket.org" then Bitbucket
  else if includes repoBaseUrl "dev.azure.com" then AzureDevOps
  else Unknown.

(** Calling a stored commit-URL generator on [this]. *)
Definition call_generateCommitUrl (g : CommitUrlGenerator) (this : BaseBranch)
    (commitId : string) : string :=
  match g with
  | commits_path => interp (commitBaseUrl this) +:+ "/commits/" +:+ commitId
  | dash_commit_path => interp (commitBaseUrl this) +:+ "/-/commit/" +:+ commitId
  | commit_path => interp (commitBaseUrl this) +:+ "/commit/" +:+ commitId
  end.

(** Calling a stored branch-URL generator on [this]. *)
Definition call_generateBranchUrl (g : BranchUrlGenerator) (this : BaseBranch)
    (baseBranchName branchName : string) : string :=
  match g with
  | fork_compare pushUsername pushRepoName =>
      interp (repoBaseUrl this) +:+ "/compare/" +:+ baseBranchName +:+ "..."
        +:+ pushUsername +:+ ":" +:+ pushRepoName +:+ ":" +:+ branchName
  | branch_dest =>
      interp (repoBaseUrl this) +:+ "/branch/" +:+ branchName +:+ "?dest="
        +:+ baseBranchName
  | branch_compare_versions =>
      interp (commitBaseUrl this) +:+ "/branchCompare?baseVersion=GB"
        +:+ baseBranchName +:+ "&targetVersion=GB" +:+ branchName
  | compare_path =>
      interp (repoBaseUrl this) +:+ "/compare/" +:+ baseBranchName +:+ "..."
        +:+ branchName
  end.

(** [commitUrl(commitId)] *)
Definition commitUrl (this : BaseBranch) (commitId : string) : option string :=
  match generateCommitUrl this with
  | Some g => Some (call_generateCommitUrl g this commitId)
  | None => None
  end.

(** [branchUrl(upstreamBranchName)] *)
Definition branchUrl (this : BaseBranch) (upstreamBranchName : option string)
    : option string :=
  match upstreamBranchName, gitPushRemote this, generateBranchUrl this with
  | Some upstream, Some _, Some g =>
      if truthy upstream then
        let baseBranchName := index (split (branchName this) "/") 1 in
        let branchName := join (drop 3 (split upstream "/")) "/" in
        Some (call_generateBranchUrl g this (interp baseBranchName) branchName)
      else None
  | _, _, _ => None
  end.

Section Forge.

(** [GitUrlParse(url)], which throws on a string it cannot parse. *)
Variable GitUrlParse : string -> result GitUrl.

(** [ipv4Regex.test(host)] *)
Variable ipv4Regex_test : string -> bool.

(** The [@Transform] of [gitPushRemote], fed from the payload key
    [pushRemoteUrl]: [value ? GitUrlParse(value) : undefined]. *)
Definition gitPushRemote_transform (value : option string)
    : result (option GitUrl) :=
  match value with
  | Some v =>
      if truthy v then bind (GitUrlParse v) (fun g => Ok (Some g))
      else Ok None
  | None => Ok None
  end.

(** [plainToInstance(BaseBranch, p)]: the fields without a payload key are
    undefined until [afterTransform] runs. *)
Definition plainToInstance_BaseBranch (p : BaseBranchPayload)
    : result BaseBranch :=
  bind (gitPushRemote_transform (BaseBranchPayload_pushRemoteUrl p))
    (fun pushRemote =>
       Ok {| branchName := BaseBranchPayload_branchName p;
             remoteName := BaseBranchPayload_remoteName p;
             pushRemoteName := BaseBranchPayload_pushRemoteName p;
             baseSha := BaseBranchPayload_baseSha p;
             currentSha := BaseBranchPayload_currentSha p;
             behind := BaseBranchPayload_behind p;
             upstreamCommits :=
               map plainToInstance_RemoteCommit
                   (BaseBranchPayload_upstreamCommits p);
             recentCommits :=
               map plainToInstance_RemoteCommit
                   (BaseBranchPayload_recentCommits p);
             lastFetchedMs := BaseBranchPayload_lastFetchedMs p;
             forgeType := None;
             remoteUrl := BaseBranchPayload_remoteUrl p;
             repoBaseUrl := None;
             gitPushRemote := pushRemote;
             commitBaseUrl := None;
             actualPushRemoteName := None;
             generateCommitUrl := None;
             generateBranchUrl := None |}).

(** The first [if (this.gitPushRemote)] block of [afterTransform]: the new
    values of [commitBaseUrl] and [generateCommitUrl]. *)
Definition commit_url_fields (this : BaseBranch) (forgeType : ForgeType)
    : option string * option CommitUrlGenerator :=
  match gitPushRemote this with
  | Some pushRemote =>
      let organization := GitUrl_organization pushRemote in
      let owner := GitUrl_owner pushRemote in
      let name := GitUrl_name pushRemote in
      let protocol := GitUrl_protocol pushRemote in
      let resource := GitUrl_resource pushRemote in
      let webProtocol := if ipv4Regex_test resource then "http" else "https" in
      let resource :=
        if strict_eq protocol "ssh" && startsWith resource "ssh."
        then slice resource 4 else resource in
      let commitBaseUrl :=
        match forgeType with
        | AzureDevOps =>
            webProtocol +:+ "://" +:+ resource +:+ "/" +:+ organization
              +:+ "/" +:+ owner +:+ "/_git/" +:+ name
        | _ =>
            webProtocol +:+ "://" +:+ resource +:+ "/" +:+ owner +:+ "/"
              +:+ name
        end in
      let generateCommitUrl :=
        match forgeType with
        | Bitbucket => commits_path
        | GitLab => dash_commit_path
        | AzureDevOps | GitHub | Unknown => commit_path
        end in
      (Some commitBaseUrl, Some generateCommitUrl)
  | None => (commitBaseUrl this, generateCommitUrl this)
  end.

(** The second [if (this.gitPushRemote)] block: the new value of
    [generateBranchUrl]. *)
Definition branch_url_field (this : BaseBranch) (forgeType : ForgeType)
    : option BranchUrlGenerator :=
  match gitPushRemote this with
  | Some pushRemote =>
      let generateBranchUrl :=
        if truthy (pushRemoteName this) then
          match forgeType with
          | GitHub =>
              Some (fork_compare (GitUrl_user pushRemote)
                                 (GitUrl_name pushRemote))
          | _ => generateBranchUrl this
          end
        else generateBranchUrl this in
      match generateBranchUrl with
      | Some g => Some g
      | None =>
          match forgeType with
          | Bitbucket => Some branch_dest
          | AzureDevOps => Some branch_compare_versions
          | GitHub | GitLab | Unknown => Some compare_path
          end
      end
  | None => generateBranchUrl this
  end.

(** [afterTransform()]: the object after the hook has run, or the error of
    the parser on [remoteUrl]. *)
Definition afterTransform (this : BaseBranch) : result BaseBranch :=
  bind (GitUrlParse (remoteUrl this)) (fun gitRemote =>
    let remoteUrlProtocol :=
      if ipv4Regex_test (GitUrl_resource gitRemote) then "http" else "https" in
    let repoBaseUrl' :=
      remoteUrlProtocol +:+ "://" +:+ GitUrl_resource gitRemote +:+ "/"
        +:+ GitUrl_owner gitRemote +:+ "/" +:+ GitUrl_name gitRemote in
    let forgeType' := getForgeType (GitUrl_resource gitRemote) in
    let actualPushRemoteName' :=
      if truthy (pushRemoteName this) then pushRemoteName this
      else remoteName this in
    let '(commitBaseUrl', generateCommitUrl') :=
      commit_url_fields this forgeType' in
    let generateBranchUrl' := branch_url_field this forgeType' in
    Ok {| branchName := branchName this;
          remoteName := remoteName this;
          pushRemoteName := pushRemoteName this;
          baseSha := baseSha this;
          currentSha := currentSha this;
          behind := behind this;
          upstreamCommits := upstreamCommits this;
          recentCommits := recentCommits this;
          lastFetchedMs := lastFetchedMs this;
          forgeType := Some forgeType';
          remoteUrl := remoteUrl this;
          repoBaseUrl := Some repoBaseUrl';
          gitPushRemote := gitPushRemote this;
          commitBaseUrl := commitBaseUrl';
          actualPushRemoteName := Some actualPushRemoteName';
          generateCommitUrl := generateCommitUrl';
          generateBranchUrl := generateBranchUrl' |}).

(** Construction of a [BaseBranch] from a payload: deserialization followed
    by the one-time hook. *)
Definition construct_BaseBranch (p : BaseBranchPayload) : result BaseBranch :=
  bind (plainToInstance_BaseBranch p) afterTransform.

End Forge.

(** ** Instances of the two parameters

    The results of the [Forge] section hold for every parser and every IPv4
    test. The two functions below instantiate them on concrete remotes. *)

(** [s] cut at the first [sep]: the text before it and the text after it. *)
Fixpoint cut_at (s : string) (sep : ascii) : option (string * string) :=
  match s with
  | EmptyString => None
  | String c s' =>
      if bool_decide (c = sep) then Some (EmptyString, s')
      else match cut_at s' sep with
           | Some (before, after) => Some (String c before, after)
           | None => None
           end
  end.

(** [s] without a trailing [".git"]. *)
Fixpoint without_dot_git (s : string) : string :=
  match s with
  | EmptyString => EmptyString
  | String c s' =>
      if bool_decide (s = ".git") then EmptyString
      else String c (without_dot_git s')
  end.

(** A parser for scp-style remotes, [user@host:owner/name.git], the form of
    the documented example [git@github.com:owner/repo.git]. It resolves the
    host, the owner and the repository name, reports the protocol as [ssh],
    and rejects every other string. *)
Definition scp_GitUrlParse (url : string) : result GitUrl :=
  match cut_at url "@" with
  | Some (user, rest) =>
      match cut_at rest ":" with
      | Some (host, path) =>
          match split path "/" with
          | [owner; repo] =>
              if truthy user && truthy host && truthy owner
                 && truthy (without_dot_git repo)
              then Ok {| GitUrl_protocol := "ssh";
                         GitUrl_resource := host;
                         GitUrl_user := user;
                         GitUrl_organization := owner;
                         GitUrl_owner := owner;
                         GitUrl_name := without_dot_git repo |}
              else Throw UrlParseError
          | _ => Throw UrlParseError
          end
      | None => Throw UrlParseError
      end
  | None => Throw UrlParseError
  end.

Definition is_digit (c : ascii) : bool :=
  (48 <=? Z.of_nat (nat_of_ascii c)) && (Z.of_nat (nat_of_ascii c) <=? 57).

Fixpoint all_digits (s : string) : bool :=
  match s with
  | EmptyString => true
  | String c s' => is_digit c && all_digits s'
  end.

(** Modelled from the spec: [ipv4Regex] of [$lib/utils/url] is not part of the
    sources at hand; the spec describes its test as "the host is a literal
    IPv4 address", read here as four non-empty groups of digits separated by
    dots. *)
Definition is_ipv4_literal (host : string) : bool :=
  match split host "." with
  | [a; b; c; d] =>
      forallb (fun g => truthy g && all_digits g) [a; b; c; d]
  | _ => false
  end.

(** ** Sample values *)

Definition sample_author (mail : string) (who : string) : Author :=
  {| Author_email := Some mail;
     Author_name := Some who;
     Author_gravatarUrl := None;
     Author_isBot := None |}.

Definition sample_remote_commit (id : string) (a : Author) (seconds : Z)
    : RemoteCommit :=
  plainToInstance_RemoteCommit
    {| RemoteCommitPayload_id := id;
       RemoteCommitPayload_author := a;
       RemoteCommitPayload_description := "message";
       RemoteCommitPayload_createdAt := seconds;
       RemoteCommitPayload_changeId := "";
       RemoteCommitPayload_isSigned := false;
       RemoteCommitPayload_parentIds := [] |}.

Definition sample_commit_payload (id : string) (isRemote isIntegrated : bool)
    : CommitPayload :=
  {| CommitPayload_id := id;
     CommitPayload_author := sample_author "a@example.com" "A";
     CommitPayload_description := "message";
     CommitPayload_createdAt := 1700000000000;
     CommitPayload_isRemote := isRemote;
     CommitPayload_isIntegrated := isIntegrated;
     CommitPayload_parentIds := [];
     CommitPayload_branchId := "b1";
     CommitPayload_changeId := "";
     CommitPayload_isSigned := false |}.

(** A deserialized commit with its [relatedTo] link set afterwards. *)
Definition sample_commit (id : string) (isRemote isIntegrated : bool)
    (related : option RemoteCommit) : Commit :=
  let c := plainToInstance_Commit (sample_commit_payload id isRemote isIntegrated) in
  {| Commit_id := Commit_id c;
     Commit_author := Commit_author c;
     Commit_description := Commit_description c;
     Commit_createdAt := Commit_createdAt c;
     Commit_isRemote := Commit_isRemote c;
     Commit_isIntegrated := Commit_isIntegrated c;
     Commit_parentIds := Commit_parentIds c;
     Commit_branchId := Commit_branchId c;
     Commit_changeId := Commit_changeId c;
     Commit_isSigned := Commit_isSigned c;
     Commit_relatedTo := related;
     Commit_prev := Commit_prev c;
     Commit_next := Commit_next c |}.

Definition sample_branch_data (name : string) (commits : list RemoteCommit)
    : RemoteBranchData :=
  {| RemoteBranchData_sha := "0000";
     RemoteBranchData_name := name;
     RemoteBranchData_upstream := None;
     RemoteBranchData_behind := 0;
     RemoteBranchData_commits := commits;
     RemoteBranchData_isMergeable := None;
     RemoteBranchData_forkPoint := None |}.

Definition sample_base_payload (remoteUrl : string) (pushRemoteName : string)
    (pushRemoteUrl : option string) : BaseBranchPayload :=
  {| BaseBranchPayload_branchName := "origin/master";
     BaseBranchPayload_remoteName := "origin";
     BaseBranchPayload_pushRemoteName := pushRemoteName;
     BaseBranchPayload_baseSha := "aaaa";
     BaseBranchPayload_currentSha := "bbbb";
     BaseBranchPayload_behind := 0;
     BaseBranchPayload_upstreamCommits := [];
     BaseBranchPayload_recentCommits := [];
     BaseBranchPayload_lastFetchedMs := None;
     BaseBranchPayload_remoteUrl := remoteUrl;
     BaseBranchPayload_pushRemoteUrl := pushRemoteUrl |}.

(** The documented remote, and what the scp-style parser resolves it to. *)
Definition sample_remote_url : string := "git@github.com:owner/repo.git".

Definition sample_git_url : GitUrl :=
  {| GitUrl_protocol := "ssh";
     GitUrl_resource := "github.com";
     GitUrl_user := "git";
     GitUrl_organization := "owner";
     GitUrl_owner := "owner";
     GitUrl_name := "repo" |}.

(** A deserialized base branch on which the hook has not run yet. *)
Definition sample_base_branch : BaseBranch :=
  {| branchName := "origin/master";
     remoteName := "origin";
     pushRemoteName := "";
     baseSha := "aaaa";
     currentSha := "bbbb";
     behind := 0;
     upstreamCommits := [];
     recentCommits := [];
     lastFetchedMs := None;
     forgeType := None;
     remoteUrl := sample_remote_url;
     repoBaseUrl := None;
     gitPushRemote := None;
     commitBaseUrl := None;
     actualPushRemoteName := None;
     generateCommitUrl := None;
     generateBranchUrl := None |}.

(** ** Files, hunks and branches *)

(** [arr.slice(start, end)], with negative indices counted from the end; a
    missing [end] is the length. *)
Definition array_slice {A} (arr : list A) (start : Z) (end_ : option Z)
    : list A :=
  let len := Z.of_nat (length arr) in
  let relative i := if i <? 0 then Z.max (len + i) 0 else Z.min i len in
  let k := relative start in
  let final := match end_ with
               | Some e => relative e
               | None => len
               end in
  take (Z.to_nat (final - k)) (drop (Z.to_nat k) arr).

Inductive ChangeType : Type :=
| added
| deleted
| modified.

Record HunkLock : Type := mkHunkLock {
  HunkLock_branchId : string;
  HunkLock_commitId : string
}.

Record Hunk : Type := mkHunk {
  Hunk_id : string;
  Hunk_diff : string;
  Hunk_modifiedAt : Date;
  Hunk_filePath : string;
  Hunk_hash : option string;
  Hunk_locked : bool;
  Hunk_lockedTo : list HunkLock;
  Hunk_changeType : ChangeType;
  Hunk_new_start : Z;
  Hunk_new_lines : Z
}.

Record LocalFile : Type := mkLocalFile {
  LocalFile_id : string;
  LocalFile_path : string;
  LocalFile_hunks : list Hunk;
  LocalFile_expanded : option bool;
  LocalFile_modifiedAt : Date;
  LocalFile_conflicted : bool;
  LocalFile_content : string;
  LocalFile_binary : bool;
  LocalFile_large : bool
}.

(** [get filename()] of [LocalFile]: [parts[parts.length - 1]] *)
Definition LocalFile_filename (this : LocalFile) : option string :=
  let parts := split (LocalFile_path this) "/" in
  index parts (Z.of_nat (length parts) - 1).

(** [get justpath()] of [LocalFile] *)
Definition LocalFile_justpath (this : LocalFile) : string :=
  join (array_slice (split (LocalFile_path this) "/") 0 (Some (-1))) "/".

(** [get hunkIds()] of [LocalFile] *)
Definition LocalFile_hunkIds (this : LocalFile) : list string :=
  map Hunk_id (LocalFile_hunks this).

(** [get locked()] of [LocalFile]. The array [hunks] is always truthy, so the
    guard of the getter takes its first branch; on booleans [!!(a || b)] is
    [a || b]. *)
Definition LocalFile_locked (this : LocalFile) : bool :=
  fold_left (fun a b => a || b) (map Hunk_locked (LocalFile_hunks this)) false.

Record RemoteHunk : Type := mkRemoteHunk {
  RemoteHunk_diff : string;
  RemoteHunk_hash : option string;
  RemoteHunk_new_start : Z;
  RemoteHunk_new_lines : Z
}.

Record RemoteFile : Type := mkRemoteFile {
  RemoteFile_path : string;
  RemoteFile_hunks : list RemoteHunk;
  RemoteFile_binary : bool
}.

(** [get id()] of [RemoteFile] *)
Definition RemoteFile_id (this : RemoteFile) : string := RemoteFile_path this.





(** [get justpath()] of [RemoteFile] *)
Definition RemoteFile_justpath (this : RemoteFile) : string :=
  join (array_slice (split (RemoteFile_path this) "/") 0 (Some (-1))) "/".

(** [get locked()] of [RemoteFile] *)
Definition RemoteFile_locked (this : RemoteFile) : bool := false.

Record RemoteBranch : Type := mkRemoteBranch {
  RemoteBranch_sha : string;
  RemoteBranch_name : string;
  RemoteBranch_upstream : option string;
  RemoteBranch_lastCommitTimestampMs : option Z;
  RemoteBranch_lastCommitAuthor : option string
}.

(** [get displayName()] of [RemoteBranch] *)
Definition RemoteBranch_displayName (this : RemoteBranch) : string :=
  replace (replace (RemoteBranch_name this) "refs/remotes/" "")
          "refs/heads/" "".

(** [Branch]; the promise [isMergeable] is left out. *)
Record Branch : Type := mkBranch {
  Branch_id : string;
  Branch_name : string;
  Branch_notes : string;
  Branch_active : bool;
  Branch_files : list LocalFile;
  Branch_commits : list Commit;
  Branch_requiresForce : bool;
  Branch_description : string;
  Branch_head : string;
  Branch_order : Z;
  Branch_upstream : option RemoteBranch;
  Branch_upstreamData : option RemoteBranchData;
  Branch_upstreamName : option string;
  Branch_conflicted : bool;
  Branch_baseCurrent : bool;
  Branch_ownership : string;
  Branch_updatedAt : Date;
  Branch_selectedForChanges : bool;
  Branch_mergeBase : string;
  Branch_forkPoint : string;
  Branch_allowRebasing : bool
}.

(** [c.status === s] *)
Definition status_is (s : CommitStatus) (c : Commit) : bool :=
  match Commit_status c, s with
  | local, local => true
  | localAndRemote, localAndRemote => true
  | integrated, integrated => true
  | remote, remote => true
  | _, _ => false
  end.

(** [get localCommits()] *)
Definition Branch_localCommits (this : Branch) : list Commit :=
  List.filter (status_is local) (Branch_commits this).

(** [get remoteCommits()] *)
Definition Branch_remoteCommits (this : Branch) : list Commit :=
  List.filter (status_is localAndRemote) (Branch_commits this).

(** [get integratedCommits()] *)
Definition Branch_integratedCommits (this : Branch) : list Commit :=
  List.filter (status_is integrated) (Branch_commits this).

(** [get displayName()] of [Branch] *)
Definition Branch_displayName (this : Branch) : string :=
  let fallback :=
    match Branch_upstreamName this with
    | Some upstreamName =>
        if truthy upstreamName then upstreamName else Branch_name this
    | None => Branch_name this
    end in
  match Branch_upstream this with
  | Some upstream =>
      if truthy (RemoteBranch_displayName upstream)
      then RemoteBranch_displayName upstream
      else fallback
  | None => fallback
  end.

(** [isParentOf(possibleChild)]: [Array.prototype.includes] on strings *)
Definition Commit_isParentOf (this possibleChild : Commit) : bool :=
  existsb (strict_eq (Commit_id this)) (Commit_parentIds possibleChild).

(** [isMergeCommit()] *)
Definition Commit_isMergeCommit (this : Commit) : bool :=
  1 <? Z.of_nat (length (Commit_parentIds this)).

(** [get lastFetched()]: the number [0] is falsy. *)
Definition lastFetched (this : BaseBranch) : option Date :=
  match lastFetchedMs this with
  | Some ms => if ms =? 0 then None else Some (newDate ms)
  | None => None
  end.

(** [get shortName()]: [this.branchName.split('/').slice(-1)[0]] *)
Definition shortName (this : BaseBranch) : option string :=
  index (array_slice (split (branchName this) "/") (-1) None) 0.

(** ** Further sample values *)

Definition sample_hunk (id : string) (locked : bool) : Hunk :=
  {| Hunk_id := id;
     Hunk_diff := "@@ -1 +1 @@";
     Hunk_modifiedAt := newDate 1700000000000;
     Hunk_filePath := "src/lib/file.ts";
     Hunk_hash := None;
     Hunk_locked := locked;
     Hunk_lockedTo := [];
     Hunk_changeType := modified;
     Hunk_new_start := 1;
     Hunk_new_lines := 1 |}.



Definition sample_remote_branch (name : string) : RemoteBranch :=
  {| RemoteBranch_sha := "0000";
     RemoteBranch_name := name;
     RemoteBranch_upstream := None;
     RemoteBranch_lastCommitTimestampMs := None;
     RemoteBranch_lastCommitAuthor := None |}.

Definition sample_branch (name : string) (upstream : option RemoteBranch)
    (upstreamName : option string) (commits : list Commit) : Branch :=
  {| Branch_id := "b1";
     Branch_name := name;
     Branch_notes := "";
     Branch_active := true;
     Branch_files := [];
     Branch_commits := commits;
     Branch_requiresForce := false;
     Branch_description := "";
     Branch_head := "aaaa";
     Branch_order := 0;
     Branch_upstream := upstream;
     Branch_upstreamData := None;
     Branch_upstreamName := upstreamName;
     Branch_conflicted := false;
     Branch_baseCurrent := true;
     Branch_ownership := "";
     Branch_updatedAt := newDate 1700000000000;
     Branch_selectedForChanges := false;
     Branch_mergeBase := "aaaa";
     Branch_forkPoint := "aaaa";
     Branch_allowRebasing := true |}.

(** A commit with a given id and change id. *)
Definition sample_any_commit (id changeId : string) : AnyCommit :=
  ofRemoteCommit
    (plainToInstance_RemoteCommit
       {| RemoteCommitPayload_id := id;
          RemoteCommitPayload_author := sample_author "a@example.com" "A";
          RemoteCommitPayload_description := "message";
          RemoteCommitPayload_createdAt := 1700000000;
          RemoteCommitPayload_changeId := changeId;
          RemoteCommitPayload_isSigned := false;
          RemoteCommitPayload_parentIds := [] |}).

(** A base branch with its derived fields as the hook computes them, at the
    scp-style parser, when the push remote is the fork
    [git@github.com:me/repo.git]. *)
Definition sample_pushed_branch (branchName : string) : BaseBranch :=
  {| branchName := branchName;
     remoteName := "origin";
     pushRemoteName := "fork";
     baseSha := "aaaa";
     currentSha := "bbbb";
     behind := 0;
     upstreamCommits := [];
     recentCommits := [];
     lastFetchedMs := Some 1700000000000;
     forgeType := Some GitHub;
     remoteUrl := sample_remote_url;
     repoBaseUrl := Some "https://github.com/owner/repo";
     gitPushRemote :=
       Some {| GitUrl_protocol := "ssh";
               GitUrl_resource := "github.com";
               GitUrl_user := "git";
               GitUrl_organization := "me";
               GitUrl_owner := "me";
               GitUrl_name := "repo" |};
     commitBaseUrl := Some "https://github.com/me/repo";
     actualPushRemoteName := Some "fork";
     generateCommitUrl := Some commit_path;
     generateBranchUrl := Some (fork_compare "git" "repo") |}.

(** [sample_base_branch] as deserialized from a payload whose push remote is
    the remote itself. *)
Definition sample_base_branch_same_push : BaseBranch :=
  {| branchName := branchName sample_base_branch;
     remoteName := remoteName sample_base_branch;
     pushRemoteName := pushRemoteName sample_base_branch;
     baseSha := baseSha sample_base_branch;
     currentSha := currentSha sample_base_branch;
     behind := behind sample_base_branch;
     upstreamCommits := upstreamCommits sample_base_branch;
     recentCommits := recentCommits sample_base_branch;
     lastFetchedMs := lastFetchedMs sample_base_branch;
     forgeType := None;
     remoteUrl := sample_remote_url;
     repoBaseUrl := None;
     gitPushRemote := Some sample_git_url;
     commitBaseUrl := None;
     actualPushRemoteName := None;
     generateCommitUrl := None;
     generateBranchUrl := None |}.

(** A deserialized base branch, before the hook, with a given push remote. *)
Definition sample_deserialized_branch (push : option GitUrl) : BaseBranch :=
  {| branchName := "origin/master";
     remoteName := "origin";
     pushRemoteName := "";
     baseSha := "aaaa";
     currentSha := "bbbb";
     behind := 0;
     upstreamCommits := [];
     recentCommits := [];
     lastFetchedMs := None;
     forgeType := None;
     remoteUrl := sample_remote_url;
     repoBaseUrl := None;
     gitPushRemote := push;
     commitBaseUrl := None;
     actualPushRemoteName := None;
     generateCommitUrl := None;
     generateBranchUrl := None |}.

(** The push remote [git@ssh.github.com:owner/repo.git] as the scp-style
    parser resolves it. *)
Definition sample_ssh_git_url : GitUrl :=
  {| GitUrl_protocol := "ssh";
     GitUrl_resource := "ssh.github.com";
     GitUrl_user := "git";
     GitUrl_organization := "owner";
     GitUrl_owner := "owner";
     GitUrl_name := "repo" |}.

(** The push remote of [sample_pushed_branch]. *)
Definition sample_fork_git_url : GitUrl :=
  {| GitUrl_protocol := "ssh";
     GitUrl_resource := "github.com";
     GitUrl_user := "git";
     GitUrl_organization := "me";
     GitUrl_owner := "me";
     GitUrl_name := "repo" |}.

(** A deserialized commit with the given parents. *)
Definition sample_commit_with_parents (id : string) (parents : list string)
    : Commit :=
  plainToInstance_Commit
    {| CommitPayload_id := id;
       CommitPayload_author := sample_author "a@example.com" "A";
       CommitPayload_description := "message";
       CommitPayload_createdAt := 1700000000000;
       CommitPayload_isRemote := false;
       CommitPayload_isIntegrated := false;
       CommitPayload_parentIds := parents;
       CommitPayload_branchId := "b1";
       CommitPayload_changeId := "";
       CommitPayload_isSigned := false |}.

(** [sample_deserialized_branch] with the branch generator of Bitbucket
    already in place. *)
Definition sample_stale_branch : BaseBranch :=
  {| branchName := "origin/master";
     remoteName := "origin";
     pushRemoteName := "";
     baseSha := "aaaa";
     currentSha := "bbbb";
     behind := 0;
     upstreamCommits := [];
     recentCommits := [];
     lastFetchedMs := None;
     forgeType := None;
     remoteUrl := sample_remote_url;
     repoBaseUrl := None;
     gitPushRemote := Some sample_git_url;
     commitBaseUrl := None;
     actualPushRemoteName := None;
     generateCommitUrl := None;
     generateBranchUrl := Some branch_dest |}.

(** ** Vocabulary of the statements *)

(** [pat] occurs in [s], with [pre] before it and [post] after it. *)
Definition occurs_at (pat s pre post : string) : Prop :=
  s = pre +:+ pat +:+ post.

Definition occurs_in (pat s : string) : Prop :=
  exists pre post, occurs_at pat s pre post.

(** [s'] is [s] with its first occurrence of [pat] cut out, or [s] itself
    when [pat] does not occur in it. *)
Definition without_first (pat s s' : string) : Prop :=
  (~ occurs_in pat s /\ s' = s)
  \/ exists pre post,
      occurs_at pat s pre post
      /\ (forall pre' post',
            occurs_at pat s pre' post' ->
            (String.length pre <= String.length pre')%nat)
      /\ s' = pre +:+ post.

(** The authors of [arr] whose email is carried neither by an author of [seen]
    nor by an earlier author of [arr]. *)
Fixpoint first_by_email (seen arr : list Author) : list Author :=
  match arr with
  | [] => []
  | a :: arr' =>
      if decide (Author_email a ∈ map Author_email seen)
      then first_by_email (seen ++ [a]) arr'
      else a :: first_by_email (seen ++ [a]) arr'
  end.



(** * Properties *)

(** ** JavaScript primitives *)

Lemma strict_eq_true (a b : string) : strict_eq a b = true <-> a = b.
Proof. unfold strict_eq. apply bool_decide_eq_true. Qed.

Lemma strict_eq_false (a b : string) : strict_eq a b = false <-> a <> b.
Proof. unfold strict_eq. apply bool_decide_eq_false. Qed.

Lemma strict_eq_sym (a b : string) : strict_eq a b = strict_eq b a.
Proof.
  destruct (strict_eq b a) eqn:E.
  - apply strict_eq_true. symmetry. by apply strict_eq_true.
  - apply strict_eq_false. intros ->. by apply strict_eq_false in E.
Qed.

Lemma truthy_true (s : string) : truthy s = true <-> s <> "".
Proof. destruct s; simpl; split; congruence. Qed.

Lemma index_last {A} (arr : list A) :
  index arr (Z.of_nat (length arr) - 1) = last arr.
Proof.
  unfold index. destruct arr as [|a arr].
  - reflexivity.
  - rewrite last_lookup.
    replace (Z.of_nat (length (a :: arr)) - 1) with (Z.of_nat (length arr))
      by (simpl; lia).
    destruct (Z.ltb_spec (Z.of_nat (length arr)) 0); [lia|].
    by rewrite Nat2Z.id.
Qed.

Lemma index_head {A} (arr : list A) : index arr 0 = head arr.
Proof. unfold index. simpl. by destruct arr. Qed.

(** ** Commit status *)

(** C1. The status of a [Commit] follows the precedence integrated, then
    localAndRemote, then local: an integrated commit is [integrated] whatever
    its other fields; otherwise a remote commit whose [relatedTo] is undefined
    or has the commit's own id is [localAndRemote]; every other commit is
    [local]. The status of a [RemoteCommit] is always [remote]. *)
Theorem Commit_status_precedence (c : Commit) (rc : RemoteCommit) :
  let related_ok :=
    Commit_relatedTo c = None
    \/ exists r, Commit_relatedTo c = Some r /\ RemoteCommit_id r = Commit_id c in
  (Commit_isIntegrated c = true -> Commit_status c = integrated)
  /\ (Commit_isIntegrated c = false -> Commit_isRemote c = true -> related_ok ->
      Commit_status c = localAndRemote)
  /\ (Commit_isIntegrated c = false ->
      ~ (Commit_isRemote c = true /\ related_ok) ->
      Commit_status c = local)
  /\ RemoteCommit_status rc = remote.
Proof.
  unfold Commit_status. repeat split.
  - by intros ->.
  - intros -> -> [-> | (r & -> & Hid)]; [done|].
    simpl. by rewrite (proj2 (strict_eq_true _ _) (eq_sym Hid)).
  - intros -> Hno. destruct (Commit_isRemote c); [|done]. simpl.
    destruct (Commit_relatedTo c) as [r|] eqn:Hr.
    + destruct (strict_eq (Commit_id c) (RemoteCommit_id r)) eqn:E; [|done].
      exfalso. apply Hno. split; [done|]. right. exists r. split; [done|].
      symmetry. by apply strict_eq_true.
    + exfalso. apply Hno. split; [done|]. by left.
Qed.

Lemma Commit_status_precedence_witness :
  Commit_status (sample_commit "c1" false true None) = integrated
  /\ Commit_status
       (sample_commit "c1" true false
          (Some (sample_remote_commit "c1" (sample_author "a@example.com" "A") 5)))
     = localAndRemote
  /\ Commit_status (sample_commit "c1" false false None) = local.
Proof.
  pose (r := sample_remote_commit "c1" (sample_author "a@example.com" "A") 5).
  split; [|split].
  - apply (Commit_status_precedence (sample_commit "c1" false true None) r).
    reflexivity.
  - apply (Commit_status_precedence (sample_commit "c1" true false (Some r)) r).
    + reflexivity.
    + reflexivity.
    + right. exists r. split; reflexivity.
  - apply (Commit_status_precedence (sample_commit "c1" false false None) r).
    + reflexivity.
    + simpl. intros [H _]. discriminate H.
Defined.

(** C10. The two derived fields disagree on what is local: a commit that is
    remote, not integrated, and related to a remote commit with another id has
    status [local] although [isLocal] is false, so a [local] status does not
    imply [isLocal]. *)
Theorem status_local_without_isLocal :
  (forall (c : Commit) (r : RemoteCommit),
      Commit_isRemote c = true ->
      Commit_isIntegrated c = false ->
      Commit_relatedTo c = Some r ->
      RemoteCommit_id r <> Commit_id c ->
      Commit_status c = local /\ Commit_isLocal c = false)
  /\ ~ (forall c : Commit, Commit_status c = local -> Commit_isLocal c = true).
Proof.
  assert (forall (c : Commit) (r : RemoteCommit),
      Commit_isRemote c = true -> Commit_isIntegrated c = false ->
      Commit_relatedTo c = Some r -> RemoteCommit_id r <> Commit_id c ->
      Commit_status c = local /\ Commit_isLocal c = false) as Hall.
  { intros c r Hrem Hint Hrel Hid. unfold Commit_status, Commit_isLocal.
    rewrite Hrem, Hint, Hrel. simpl. split; [|done].
    assert (strict_eq (Commit_id c) (RemoteCommit_id r) = false) as ->; [|done].
    apply strict_eq_false. congruence. }
  split; [exact Hall|].
  intros Himp.
  pose (r := sample_remote_commit "r9" (sample_author "a@example.com" "A") 5).
  pose (c := sample_commit "c1" true false (Some r)).
  destruct (Hall c r) as [Hst Hloc]; try reflexivity.
  - simpl. discriminate.
  - specialize (Himp c Hst). congruence.
Qed.

Lemma status_local_without_isLocal_witness :
  let r := sample_remote_commit "r9" (sample_author "a@example.com" "A") 5 in
  let c := sample_commit "c1" true false (Some r) in
  Commit_status c = local /\ Commit_isLocal c = false.
Proof.
  intros r c. apply (proj1 status_local_without_isLocal c r).
  - reflexivity.
  - reflexivity.
  - reflexivity.
  - simpl. discriminate.
Defined.

(** ** Commit comparison *)

(** C2. [commitCompare] is symmetric and reflexive, and it holds exactly when
    the two ids are equal, or the two change ids are both non-empty and
    equal. The two arguments range over both kinds of commit. *)
Theorem commitCompare_spec (a b : AnyCommit) :
  commitCompare a b = commitCompare b a
  /\ commitCompare a a = true
  /\ (commitCompare a b = true <->
      AnyCommit_id a = AnyCommit_id b
      \/ (AnyCommit_changeId a <> "" /\ AnyCommit_changeId b <> ""
          /\ AnyCommit_changeId a = AnyCommit_changeId b)).
Proof.
  split; [|split].
  - unfold commitCompare.
    rewrite (strict_eq_sym (AnyCommit_id a)).
    rewrite (strict_eq_sym (AnyCommit_changeId a)).
    rewrite (andb_comm (truthy (AnyCommit_changeId a))). reflexivity.
  - unfold commitCompare.
    by rewrite (proj2 (strict_eq_true _ _) eq_refl).
  - unfold commitCompare. split.
    + destruct (strict_eq (AnyCommit_id a) (AnyCommit_id b)) eqn:Eid.
      * intros _. left. by apply strict_eq_true.
      * destruct (truthy (AnyCommit_changeId a)) eqn:Ta; [|done].
        destruct (truthy (AnyCommit_changeId b)) eqn:Tb; [|done].
        destruct (strict_eq (AnyCommit_changeId a) (AnyCommit_changeId b))
          eqn:Ech; [|done].
        intros _. right. repeat split.
        -- by apply truthy_true.
        -- by apply truthy_true.
        -- by apply strict_eq_true.
    + intros [Hid | (Ha & Hb & Hch)].
      * by rewrite (proj2 (strict_eq_true _ _) Hid).
      * rewrite (proj2 (truthy_true _) Ha), (proj2 (truthy_true _) Hb).
        rewrite (proj2 (strict_eq_true _ _) Hch). simpl.
        by destruct (strict_eq (AnyCommit_id a) (AnyCommit_id b)).
Qed.

(** ** Deserialization of [createdAt] *)

(** C3. The raw [createdAt] is converted differently for the two kinds of
    commit: the date of a [RemoteCommit] is built from the raw value times
    1000, the date of a [Commit] from the raw value itself. For one and the
    same non-zero raw value in range the two dates therefore differ. *)
Theorem createdAt_conversion :
  (forall p : RemoteCommitPayload,
      RemoteCommit_createdAt (plainToInstance_RemoteCommit p)
      = newDate (RemoteCommitPayload_createdAt p * 1000))
  /\ (forall p : CommitPayload,
      Commit_createdAt (plainToInstance_Commit p)
      = newDate (CommitPayload_createdAt p))
  /\ (forall (p : RemoteCommitPayload) (q : CommitPayload) (raw : Z),
      RemoteCommitPayload_createdAt p = raw ->
      CommitPayload_createdAt q = raw ->
      raw <> 0 -> Z.abs raw * 1000 <= maxTime ->
      timeValue (RemoteCommit_createdAt (plainToInstance_RemoteCommit p))
      = Some (raw * 1000)
      /\ timeValue (Commit_createdAt (plainToInstance_Commit q)) = Some raw
      /\ RemoteCommit_createdAt (plainToInstance_RemoteCommit p)
         <> Commit_createdAt (plainToInstance_Commit q)).
Proof.
  split; [|split]; [reflexivity|reflexivity|].
  intros p q raw Hp Hq Hnz Hrange. simpl.
  unfold RemoteCommit_createdAt_transform, Commit_createdAt_transform, newDate.
  rewrite Hp, Hq. simpl.
  assert ((Z.abs (raw * 1000) <=? maxTime) = true) as ->
    by (apply Z.leb_le; rewrite Z.abs_mul; simpl; lia).
  assert ((Z.abs raw <=? maxTime) = true) as -> by (apply Z.leb_le; lia).
  repeat split. intros H. injection H. lia.
Qed.

Lemma createdAt_conversion_witness :
  let p := {| RemoteCommitPayload_id := "r1";
              RemoteCommitPayload_author := sample_author "a@example.com" "A";
              RemoteCommitPayload_description := "message";
              RemoteCommitPayload_createdAt := 1700000000;
              RemoteCommitPayload_changeId := "";
              RemoteCommitPayload_isSigned := false;
              RemoteCommitPayload_parentIds := [] |} in
  let q := {| CommitPayload_id := "c1";
              CommitPayload_author := sample_author "a@example.com" "A";
              CommitPayload_description := "message";
              CommitPayload_createdAt := 1700000000;
              CommitPayload_isRemote := false;
              CommitPayload_isIntegrated := false;
              CommitPayload_parentIds := [];
              CommitPayload_branchId := "b1";
              CommitPayload_changeId := "";
              CommitPayload_isSigned := false |} in
  timeValue (RemoteCommit_createdAt (plainToInstance_RemoteCommit p))
  = Some 1700000000000
  /\ timeValue (Commit_createdAt (plainToInstance_Commit q)) = Some 1700000000.
Proof.
  intros p q.
  destruct (proj2 (proj2 createdAt_conversion) p q 1700000000) as (H1 & H2 & _).
  - reflexivity.
  - reflexivity.
  - lia.
  - unfold maxTime. lia.
  - split; [exact H1 | exact H2].
Defined.

(** ** Remote branch data: timestamps *)

(** C9. [lastCommitTs] is total: it is the date of the first stored commit and
    undefined when there is none. [firstCommitAt] is partial: on an empty
    [commits] it throws, reading [createdAt] of an element that does not
    exist, and on a non-empty one it returns the date of the last stored
    commit. *)
Theorem commit_timestamps (d : RemoteBranchData) :
  RemoteBranchData_lastCommitTs d
  = RemoteCommit_createdAt <$> head (RemoteBranchData_commits d)
  /\ (RemoteBranchData_commits d = [] ->
      RemoteBranchData_lastCommitTs d = None
      /\ RemoteBranchData_firstCommitAt d = Throw TypeError)
  /\ (RemoteBranchData_commits d <> [] ->
      exists c, last (RemoteBranchData_commits d) = Some c
                /\ RemoteBranchData_firstCommitAt d
                   = Ok (RemoteCommit_createdAt c)).
Proof.
  unfold RemoteBranchData_lastCommitTs, RemoteBranchData_firstCommitAt.
  rewrite index_head, index_last.
  split; [|split].
  - by destruct (head (RemoteBranchData_commits d)).
  - by intros ->.
  - intros Hne. destruct (last (RemoteBranchData_commits d)) as [c|] eqn:E.
    + by exists c.
    + by apply last_None in E.
Qed.

Lemma commit_timestamps_witness :
  let a := sample_author "a@example.com" "A" in
  (RemoteBranchData_lastCommitTs (sample_branch_data "x" []) = None
   /\ RemoteBranchData_firstCommitAt (sample_branch_data "x" [])
      = Throw TypeError)
  /\ exists c,
      last [sample_remote_commit "r2" a 20; sample_remote_commit "r1" a 10]
      = Some c
      /\ RemoteBranchData_firstCommitAt
           (sample_branch_data "x"
              [sample_remote_commit "r2" a 20; sample_remote_commit "r1" a 10])
         = Ok (RemoteCommit_createdAt c).
Proof.
  intros a. split.
  - apply (commit_timestamps (sample_branch_data "x" [])). reflexivity.
  - apply (commit_timestamps
             (sample_branch_data "x"
                [sample_remote_commit "r2" a 20; sample_remote_commit "r1" a 10])).
    simpl. discriminate.
Defined.

(** ** Strings: prefixes, occurrences and [replace] *)

Lemma app_cons (c : ascii) (s t : string) :
  String c s +:+ t = String c (s +:+ t).
Proof. reflexivity. Qed.

Lemma app_empty_l (s : string) : "" +:+ s = s.
Proof. reflexivity. Qed.

Lemma prefix_spec (p s : string) :
  String.prefix p s = true <-> exists post, s = p +:+ post.
Proof.
  revert s. induction p as [|c p IH]; intros s.
  - split; [|by destruct s]. intros _. by exists s.
  - destruct s as [|c' s]; simpl.
    + split; [done|]. intros [post H]. rewrite app_cons in H. discriminate.
    + destruct (ascii_dec c c') as [->|Hne].
      * rewrite IH. split; intros [post H]; exists post.
        -- rewrite app_cons. by f_equal.
        -- rewrite app_cons in H. by injection H.
      * split; [done|]. intros [post H]. rewrite app_cons in H.
        injection H as H1 _. congruence.
Qed.

Lemma slice_app (p post : string) : slice (p +:+ post) (String.length p) = post.
Proof. induction p as [|c p IH]; [by destruct post|]. rewrite app_cons. apply IH. Qed.

Lemma replace_unfold (s pat rep : string) :
  replace s pat rep
  = if String.prefix pat s then rep +:+ slice s (String.length pat)
    else match s with
         | EmptyString => EmptyString
         | String c s' => String c (replace s' pat rep)
         end.
Proof. by destruct s. Qed.

Lemma includes_unfold (s pat : string) :
  includes s pat
  = if String.prefix pat s then true
    else match s with
         | EmptyString => false
         | String _ s' => includes s' pat
         end.
Proof. by destruct s. Qed.

Lemma startsWith_strip (s p : string) :
  startsWith s p = true -> replace s p "" = strip_prefix s p.
Proof.
  unfold strip_prefix, startsWith. intros H.
  by rewrite replace_unfold, H.
Qed.

Lemma occurs_at_head (pat s post : string) :
  occurs_at pat s "" post -> String.prefix pat s = true.
Proof. unfold occurs_at. rewrite app_empty_l. intros ->. apply prefix_spec. by eexists. Qed.

Lemma occurs_at_tail (pat : string) (c : ascii) (s pre post : string) :
  String.prefix pat (String c s) = false ->
  occurs_at pat (String c s) pre post ->
  exists pre', pre = String c pre' /\ occurs_at pat s pre' post.
Proof.
  intros Hno Hocc. destruct pre as [|c' pre'].
  - apply occurs_at_head in Hocc. congruence.
  - unfold occurs_at in *. rewrite app_cons in Hocc. injection Hocc as -> ->.
    by exists pre'.
Qed.

Lemma prefix_occurs (pat s : string) :
  String.prefix pat s = true -> exists post, occurs_at pat s "" post.
Proof. intros [post E]%prefix_spec. by exists post. Qed.

Lemma includes_spec (s pat : string) :
  includes s pat = true <-> occurs_in pat s.
Proof.
  induction s as [|c s IH]; rewrite includes_unfold.
  - destruct (String.prefix pat "") eqn:E.
    + split; [|done]. intros _. apply prefix_occurs in E as [post E].
      by exists "", post.
    + split; [done|]. intros (pre & post & H).
      destruct pre; [apply occurs_at_head in H; congruence|].
      unfold occurs_at in H. rewrite app_cons in H. discriminate.
  - destruct (String.prefix pat (String c s)) eqn:E.
    + split; [|done]. intros _. apply prefix_occurs in E as [post E].
      by exists "", post.
    + rewrite IH. split.
      * intros (pre & post & H). exists (String c pre), post.
        unfold occurs_at in *. rewrite app_cons. by f_equal.
      * intros (pre & post & H).
        destruct (occurs_at_tail _ _ _ _ _ E H) as (pre' & _ & H').
        by exists pre', post.
Qed.

Lemma includes_false (s pat : string) :
  includes s pat = false <-> ~ occurs_in pat s.
Proof.
  rewrite <- includes_spec. destruct (includes s pat); naive_solver.
Qed.

Lemma replace_at_head (s pat post : string) :
  occurs_at pat s "" post -> "" +:+ slice s (String.length pat) = "" +:+ post.
Proof. unfold occurs_at. rewrite !app_empty_l. intros ->. apply slice_app. Qed.

Lemma replace_without_first (s pat : string) :
  without_first pat s (replace s pat "").
Proof.
  induction s as [|c s IH]; rewrite replace_unfold.
  - destruct (String.prefix pat "") eqn:E.
    + right. apply prefix_occurs in E as [post E]. exists "", post.
      split; [exact E|]. split; [simpl; lia|]. by apply replace_at_head.
    + left. split; [|done]. apply includes_false.
      by rewrite includes_unfold, E.
  - destruct (String.prefix pat (String c s)) eqn:E.
    + right. apply prefix_occurs in E as [post E]. exists "", post.
      split; [exact E|]. split; [simpl; lia|]. by apply replace_at_head.
    + destruct IH as [[Hno ->] | (pre & post & Hocc & Hmin & ->)].
      * left. split; [|done]. intros (pre & post & H).
        destruct (occurs_at_tail _ _ _ _ _ E H) as (pre' & _ & H').
        apply Hno. by exists pre', post.
      * right. exists (String c pre), post. split; [|split].
        -- unfold occurs_at in *. rewrite app_cons. by f_equal.
        -- intros pre2 post2 H2.
           destruct (occurs_at_tail _ _ _ _ _ E H2) as (pre' & -> & H').
           simpl. apply Hmin in H'. lia.
        -- by rewrite app_cons.
Qed.

(** ** Remote branch data: display name *)

(** C7, as the code has it. [displayName] is [name] with ["refs/remotes/"],
    then ["origin/"], then ["refs/heads/"] cut out, in that fixed order, each
    at its first occurrence in the string reached so far, wherever that
    occurrence stands; a string that does not occur is skipped. *)
Theorem displayName_cuts_first_occurrences (d : RemoteBranchData) :
  exists s1 s2,
    without_first "refs/remotes/" (RemoteBranchData_name d) s1
    /\ without_first "origin/" s1 s2
    /\ without_first "refs/heads/" s2 (RemoteBranchData_displayName d).
Proof.
  unfold RemoteBranchData_displayName.
  eexists _, _. repeat split; apply replace_without_first.
Qed.

(** C7, as the claim has it, fails: in ["refs/remotes/upstream/origin/x"],
    once ["refs/remotes/"] is gone, ["origin/"] is not a leading prefix of
    what remains, yet the getter removes it. *)
Lemma displayName_not_prefix_stripping :
  let d := sample_branch_data "refs/remotes/upstream/origin/x" [] in
  RemoteBranchData_displayName d = "upstream/x"
  /\ displayName_by_prefix (RemoteBranchData_name d) = "upstream/origin/x"
  /\ RemoteBranchData_displayName d
     <> displayName_by_prefix (RemoteBranchData_name d).
Proof. vm_compute. repeat split. discriminate. Qed.

(** ** Remote branch data: authors *)

Lemma same_email_true (author a : Author) :
  same_email author a = true <-> Author_email a = Author_email author.
Proof. unfold same_email. apply bool_decide_eq_true. Qed.

Lemma email_seen (a : Author) (seen : list Author) :
  Author_email a ∈ map Author_email seen
  <-> exists b, b ∈ seen /\ same_email a b = true.
Proof.
  rewrite list_elem_of_fmap. split; intros (b & H1 & H2); exists b.
  - split; [done|]. by apply same_email_true.
  - split; [|done]. symmetry. by apply same_email_true.
Qed.

(** The first hit of [findIndex] lies past a prefix without hits. *)
Lemma findIndex_from_hit {A} (p : A -> bool) (pre : list A) (a : A)
    (post : list A) (i : Z) :
  (forall b, b ∈ pre -> p b = false) -> p a = true ->
  findIndex_from p (pre ++ a :: post) i = i + Z.of_nat (length pre).
Proof.
  revert i. induction pre as [|x pre IH]; intros i Hpre Ha; simpl.
  - rewrite Ha. lia.
  - rewrite (Hpre x) by left. rewrite IH; [lia| |done].
    intros b Hb. apply Hpre. by right.
Qed.

(** A hit inside the prefix keeps [findIndex] before the end of the prefix. *)
Lemma findIndex_from_early {A} (p : A -> bool) (pre rest : list A) (i : Z) :
  (exists b, b ∈ pre /\ p b = true) ->
  findIndex_from p (pre ++ rest) i <> i + Z.of_nat (length pre).
Proof.
  revert i. induction pre as [|x pre IH]; intros i (b & Hb & Hp).
  - by apply elem_of_nil in Hb.
  - simpl. destruct (p x) eqn:Hx; [lia|].
    apply elem_of_cons in Hb as [-> | Hb]; [congruence|].
    specialize (IH (i + 1)). intros Heq. apply IH; [by exists b|]. lia.
Qed.

Lemma filter_from_first_by_email (allAuthors : list Author) :
  forall arr pre,
    allAuthors = pre ++ arr ->
    filter_from
      (fun author index => findIndex (same_email author) allAuthors =? index)
      arr (Z.of_nat (length pre))
    = first_by_email pre arr.
Proof.
  induction arr as [|a arr IH]; intros pre Hall; [done|].
  assert (Z.of_nat (length pre) + 1 = Z.of_nat (length (pre ++ [a]))) as Hlen
    by (rewrite length_app; simpl; lia).
  assert (allAuthors = (pre ++ [a]) ++ arr) as Hall'
    by (by rewrite <- app_assoc).
  simpl. rewrite Hlen, (IH _ Hall'). unfold findIndex.
  destruct (decide (Author_email a ∈ map Author_email pre)) as [Hin | Hout].
  - apply email_seen in Hin.
    pose proof (findIndex_from_early (same_email a) pre (a :: arr) 0 Hin) as Hne.
    rewrite <- Hall in Hne.
    destruct (Z.eqb_spec (findIndex_from (same_email a) allAuthors 0)
                         (Z.of_nat (length pre))); [lia|done].
  - assert (findIndex_from (same_email a) allAuthors 0
            = 0 + Z.of_nat (length pre)) as ->.
    { rewrite Hall. apply findIndex_from_hit.
      - intros b Hb. destruct (same_email a b) eqn:E; [|done].
        exfalso. apply Hout, email_seen. by exists b.
      - by apply same_email_true. }
    by rewrite Z.add_0_l, Z.eqb_refl.
Qed.

Lemma authors_first_by_email (d : RemoteBranchData) :
  RemoteBranchData_authors d
  = first_by_email [] (map RemoteCommit_author (RemoteBranchData_commits d)).
Proof.
  unfold RemoteBranchData_authors, filter_indexed.
  by apply (filter_from_first_by_email _ _ []).
Qed.

Lemma first_by_email_emails (arr seen : list Author) (e : option string) :
  e ∈ map Author_email (first_by_email seen arr)
  <-> e ∈ map Author_email arr /\ (e ∉ map Author_email seen).
Proof.
  revert seen. induction arr as [|a arr IH]; intros seen; simpl.
  - rewrite elem_of_nil. tauto.
  - assert ((e ∉ map Author_email (seen ++ [a]))
            <-> (e ∉ map Author_email seen) /\ e <> Author_email a) as Hsnoc.
    { rewrite map_app, elem_of_app. simpl. rewrite list_elem_of_singleton. tauto. }
    destruct (decide (Author_email a ∈ map Author_email seen)) as [Hin | Hout];
      simpl; rewrite ?elem_of_cons, IH, Hsnoc.
    + split; [tauto|]. intros [[Heq | Harr] Hseen].
      * by subst e.
      * split; [done|]. split; [done|]. intros Heq. by subst e.
    + destruct (decide (e = Author_email a)) as [Heq | Hne]; [|tauto].
      subst e. split; intros _; [split|]; [by left|done|by left].
Qed.

Lemma first_by_email_NoDup (arr seen : list Author) :
  NoDup (map Author_email (first_by_email seen arr)).
Proof.
  revert seen. induction arr as [|a arr IH]; intros seen; simpl.
  - constructor.
  - destruct (decide (Author_email a ∈ map Author_email seen)); [apply IH|].
    simpl. constructor; [|apply IH].
    rewrite first_by_email_emails, map_app, elem_of_app. simpl.
    rewrite list_elem_of_singleton. tauto.
Qed.

(** Cutting the result at one of its authors cuts the input at the first
    author carrying that email. *)
Lemma first_by_email_split (arr seen l1 : list Author) (a : Author)
    (l2 : list Author) :
  first_by_email seen arr = l1 ++ a :: l2 ->
  exists q1 q2,
    arr = q1 ++ a :: q2
    /\ (Author_email a ∉ map Author_email (seen ++ q1))
    /\ l1 = first_by_email seen q1
    /\ l2 = first_by_email (seen ++ q1 ++ [a]) q2.
Proof.
  revert seen l1. induction arr as [|x arr IH]; intros seen l1 H; simpl in H.
  - by destruct l1.
  - destruct (decide (Author_email x ∈ map Author_email seen)) as [Hin | Hout].
    + destruct (IH _ _ H) as (q1 & q2 & -> & Hfresh & -> & ->).
      exists (x :: q1), q2. rewrite <- !app_assoc in *. simpl in *.
      repeat split; [done|].
      by destruct (decide (Author_email x ∈ map Author_email seen)).
    + destruct l1 as [|y l1]; simpl in H; injection H as <- H.
      * exists [], arr. rewrite app_nil_r. simpl. by repeat split.
      * destruct (IH _ _ H) as (q1 & q2 & -> & Hfresh & -> & ->).
        exists (x :: q1), q2. rewrite <- !app_assoc in *. simpl in *.
        repeat split; [done|].
        by destruct (decide (Author_email x ∈ map Author_email seen)).
Qed.

(** C8. The derived [authors] carry each email of the commits exactly once;
    the author kept for an email is the author of the first commit, in the
    stored order, bearing it; and the authors stand in the order in which
    their emails first occur. *)
Theorem authors_distinct_first_occurrence (d : RemoteBranchData) :
  let allAuthors := map RemoteCommit_author (RemoteBranchData_commits d) in
  let authors := RemoteBranchData_authors d in
  NoDup (map Author_email authors)
  /\ (forall e, e ∈ map Author_email authors <-> e ∈ map Author_email allAuthors)
  /\ (forall a, a ∈ authors ->
        exists pre post,
          allAuthors = pre ++ a :: post
          /\ (Author_email a ∉ map Author_email pre))
  /\ (forall l1 a l2 b l3,
        authors = l1 ++ a :: l2 ++ b :: l3 ->
        exists p1 p2 p3,
          allAuthors = p1 ++ a :: p2 ++ b :: p3
          /\ (Author_email a ∉ map Author_email p1)
          /\ (Author_email b ∉ map Author_email (p1 ++ a :: p2))).
Proof.
  intros allAuthors authors. subst authors.
  rewrite authors_first_by_email. fold allAuthors.
  split; [|split; [|split]].
  - apply first_by_email_NoDup.
  - intros e. rewrite first_by_email_emails. simpl. rewrite elem_of_nil. tauto.
  - intros a (l1 & l2 & H)%list_elem_of_split.
    destruct (first_by_email_split _ _ _ _ _ H) as (q1 & q2 & Hq & Hfresh & _).
    by exists q1, q2.
  - intros l1 a l2 b l3 H.
    destruct (first_by_email_split _ _ _ _ _ H)
      as (q1 & q2 & Hq & Hfresh & _ & H2).
    symmetry in H2.
    destruct (first_by_email_split _ _ _ _ _ H2)
      as (r1 & r2 & Hr & Hfresh2 & _).
    exists q1, r1, r2. subst q2. split; [done|]. split; [done|].
    simpl in Hfresh2. by rewrite <- app_assoc in Hfresh2.
Qed.

(** ** Forge detection *)

Lemma getForgeType_cases (host : string) :
  (occurs_in "github.com" host -> getForgeType host = GitHub)
  /\ (~ occurs_in "github.com" host -> occurs_in "gitlab.com" host ->
      getForgeType host = GitLab)
  /\ (~ occurs_in "github.com" host -> ~ occurs_in "gitlab.com" host ->
      occurs_in "bitbucket.org" host -> getForgeType host = Bitbucket)
  /\ (~ occurs_in "github.com" host -> ~ occurs_in "gitlab.com" host ->
      ~ occurs_in "bitbucket.org" host -> occurs_in "dev.azure.com" host ->
      getForgeType host = AzureDevOps)
  /\ (~ occurs_in "github.com" host -> ~ occurs_in "gitlab.com" host ->
      ~ occurs_in "bitbucket.org" host -> ~ occurs_in "dev.azure.com" host ->
      getForgeType host = Unknown).
Proof.
  unfold getForgeType. rewrite <- !includes_false, <- !includes_spec.
  repeat split; intros; repeat match goal with H : includes _ _ = _ |- _ =>
    rewrite H; clear H end; reflexivity.
Qed.

Section ForgeProperties.

Variable GitUrlParse : string -> result GitUrl.
Variable ipv4Regex_test : string -> bool.

Local Abbreviation hook := (afterTransform GitUrlParse ipv4Regex_test).
Local Abbreviation deserialize := (plainToInstance_BaseBranch GitUrlParse).
Local Abbreviation construct := (construct_BaseBranch GitUrlParse ipv4Regex_test).

(** What the hook leaves in each derived field once [remoteUrl] has parsed. *)
Lemma afterTransform_fields (this b : BaseBranch) (g : GitUrl) :
  GitUrlParse (remoteUrl this) = Ok g ->
  hook this = Ok b ->
  let forge := getForgeType (GitUrl_resource g) in
  forgeType b = Some forge
  /\ repoBaseUrl b
     = Some ((if ipv4Regex_test (GitUrl_resource g) then "http" else "https")
             +:+ "://" +:+ GitUrl_resource g +:+ "/" +:+ GitUrl_owner g
             +:+ "/" +:+ GitUrl_name g)
  /\ gitPushRemote b = gitPushRemote this
  /\ commitBaseUrl b
     = fst (commit_url_fields ipv4Regex_test this forge)
  /\ generateCommitUrl b
     = snd (commit_url_fields ipv4Regex_test this forge)
  /\ generateBranchUrl b = branch_url_field this forge.
Proof.
  intros Hg. unfold afterTransform. rewrite Hg. simpl.
  destruct (commit_url_fields _ _ _) as [base gen].
  intros [= <-]. simpl. by repeat split.
Qed.

Lemma afterTransform_returns (this : BaseBranch) (g : GitUrl) :
  GitUrlParse (remoteUrl this) = Ok g -> exists b, hook this = Ok b.
Proof.
  intros Hg. unfold afterTransform. rewrite Hg. simpl.
  destruct (commit_url_fields _ _ _). by eexists.
Qed.

Lemma afterTransform_parsed (this b : BaseBranch) :
  hook this = Ok b -> exists g, GitUrlParse (remoteUrl this) = Ok g.
Proof.
  unfold afterTransform.
  destruct (GitUrlParse (remoteUrl this)) as [g|e]; [by exists g|done].
Qed.

(** C4. When [remoteUrl] parses, the hook returns and [forgeType] is decided by
    which of the four host names occurs in the resolved host, tried in the
    order github.com, gitlab.com, bitbucket.org, dev.azure.com, with [Unknown]
    when none occurs. For [git@github.com:owner/repo.git], resolved to the
    host github.com (no IPv4 literal), the owner [owner] and the name [repo],
    the forge is GitHub and [repoBaseUrl] is
    [https://github.com/owner/repo]. *)
Theorem forge_classification (this : BaseBranch) (g : GitUrl) :
  GitUrlParse (remoteUrl this) = Ok g ->
  exists b,
    hook this = Ok b
    /\ let host := GitUrl_resource g in
       (occurs_in "github.com" host -> forgeType b = Some GitHub)
       /\ (~ occurs_in "github.com" host -> occurs_in "gitlab.com" host ->
           forgeType b = Some GitLab)
       /\ (~ occurs_in "github.com" host -> ~ occurs_in "gitlab.com" host ->
           occurs_in "bitbucket.org" host -> forgeType b = Some Bitbucket)
       /\ (~ occurs_in "github.com" host -> ~ occurs_in "gitlab.com" host ->
           ~ occurs_in "bitbucket.org" host ->
           occurs_in "dev.azure.com" host ->
           forgeType b = Some AzureDevOps)
       /\ (~ occurs_in "github.com" host -> ~ occurs_in "gitlab.com" host ->
           ~ occurs_in "bitbucket.org" host ->
           ~ occurs_in "dev.azure.com" host ->
           forgeType b = Some Unknown)
       /\ (remoteUrl this = "git@github.com:owner/repo.git" ->
           host = "github.com" -> GitUrl_owner g = "owner" ->
           GitUrl_name g = "repo" -> ipv4Regex_test "github.com" = false ->
           forgeType b = Some GitHub
           /\ repoBaseUrl b = Some "https://github.com/owner/repo").
Proof.
  intros Hg. destruct (afterTransform_returns this g Hg) as [b Hb].
  exists b. split; [done|].
  destruct (afterTransform_fields this b g Hg Hb) as (Hforge & Hbase & _).
  destruct (getForgeType_cases (GitUrl_resource g)) as (H1 & H2 & H3 & H4 & H5).
  simpl. rewrite Hforge, Hbase.
  repeat split; intros; try (f_equal; auto; fail).
  - by replace (GitUrl_resource g) with "github.com".
  - replace (GitUrl_resource g) with "github.com".
    replace (GitUrl_owner g) with "owner".
    replace (GitUrl_name g) with "repo".
    by replace (ipv4Regex_test "github.com") with false.
Qed.

(** ** Base branches without a push remote *)

Lemma plainToInstance_no_push (p : BaseBranchPayload) :
  BaseBranchPayload_pushRemoteUrl p = None
  \/ BaseBranchPayload_pushRemoteUrl p = Some "" ->
  exists b,
    deserialize p = Ok b
    /\ remoteUrl b = BaseBranchPayload_remoteUrl p
    /\ gitPushRemote b = None
    /\ commitBaseUrl b = None
    /\ generateCommitUrl b = None
    /\ generateBranchUrl b = None.
Proof.
  intros H. unfold plainToInstance_BaseBranch.
  destruct H as [-> | ->]; simpl; eexists; by repeat split.
Qed.

Lemma afterTransform_no_push (this b : BaseBranch) :
  gitPushRemote this = None ->
  commitBaseUrl this = None ->
  generateCommitUrl this = None ->
  generateBranchUrl this = None ->
  hook this = Ok b ->
  gitPushRemote b = None
  /\ commitBaseUrl b = None
  /\ generateCommitUrl b = None
  /\ generateBranchUrl b = None.
Proof.
  intros Hpush Hbase Hgen Hbr Hb.
  destruct (afterTransform_parsed this b Hb) as [g Hg].
  destruct (afterTransform_fields this b g Hg Hb)
    as (_ & _ & -> & -> & -> & ->).
  unfold commit_url_fields, branch_url_field. rewrite Hpush. by simpl.
Qed.

(** C5. A base branch built from a payload without [pushRemoteUrl] has no
    push-remote descriptor and no [commitBaseUrl]; [branchUrl] is undefined for
    every argument and [commitUrl] for every id. This holds although the
    construction succeeds and classifies the forge as soon as [remoteUrl]
    parses. *)
Theorem no_push_remote_no_urls (p : BaseBranchPayload) :
  BaseBranchPayload_pushRemoteUrl p = None ->
  (forall b,
      construct p = Ok b ->
      gitPushRemote b = None
      /\ commitBaseUrl b = None
      /\ generateCommitUrl b = None
      /\ generateBranchUrl b = None
      /\ (forall x, branchUrl b x = None)
      /\ (forall commitId, commitUrl b commitId = None))
  /\ (forall g,
        GitUrlParse (BaseBranchPayload_remoteUrl p) = Ok g ->
        exists b,
          construct p = Ok b
          /\ forgeType b = Some (getForgeType (GitUrl_resource g))).
Proof.
  intros Hnone.
  destruct (plainToInstance_no_push p (or_introl Hnone))
    as (b0 & Hb0 & Hurl & Hpush & Hbase & Hgen & Hbr).
  unfold construct_BaseBranch. rewrite Hb0. simpl. split.
  - intros b Hb.
    destruct (afterTransform_no_push b0 b Hpush Hbase Hgen Hbr Hb)
      as (Hp & Hc & Hg & Hbr').
    repeat split; try done.
    + intros x. unfold branchUrl. rewrite Hp. by destruct x.
    + intros commitId. unfold commitUrl. by rewrite Hg.
  - intros g Hg. rewrite <- Hurl in Hg.
    destruct (afterTransform_returns b0 g Hg) as [b Hb].
    exists b. split; [done|].
    by destruct (afterTransform_fields b0 b g Hg Hb) as (-> & _).
Qed.

(** ** Base branches with a push remote the parser rejects *)

(** C6, as the code has it. Only an absent or empty [pushRemoteUrl] is taken
    as "no push remote": deserialization returns, the descriptor is undefined
    and the fields derived from it stay unset, also after the hook. A
    non-empty [pushRemoteUrl] goes to the parser unguarded: when the parser
    throws on it, deserialization and the construction throw the same error,
    and when it parses, the descriptor is what the parser returned. *)
Theorem push_remote_url_handling (p : BaseBranchPayload) :
  (BaseBranchPayload_pushRemoteUrl p = None
   \/ BaseBranchPayload_pushRemoteUrl p = Some "" ->
   exists b0,
     deserialize p = Ok b0
     /\ gitPushRemote b0 = None
     /\ forall b,
         hook b0 = Ok b ->
         gitPushRemote b = None /\ commitBaseUrl b = None
         /\ generateCommitUrl b = None /\ generateBranchUrl b = None)
  /\ (forall v e,
        BaseBranchPayload_pushRemoteUrl p = Some v -> v <> "" ->
        GitUrlParse v = Throw e ->
        deserialize p = Throw e
        /\ construct p = Throw e)
  /\ (forall v g,
        BaseBranchPayload_pushRemoteUrl p = Some v -> v <> "" ->
        GitUrlParse v = Ok g ->
        exists b0,
          deserialize p = Ok b0
          /\ gitPushRemote b0 = Some g).
Proof.
  split; [|split].
  - intros H.
    destruct (plainToInstance_no_push p H)
      as (b0 & Hb0 & _ & Hpush & Hbase & Hgen & Hbr).
    exists b0. split; [done|]. split; [done|].
    intros b Hb. by apply (afterTransform_no_push b0 b).
  - intros v e Hv Hne He.
    unfold construct_BaseBranch, plainToInstance_BaseBranch.
    rewrite Hv. simpl. rewrite (proj2 (truthy_true v) Hne), He. by simpl.
  - intros v g Hv Hne Hg. unfold plainToInstance_BaseBranch.
    rewrite Hv. simpl. rewrite (proj2 (truthy_true v) Hne), Hg. simpl.
    by eexists.
Qed.

End ForgeProperties.

(** ** The results at the scp-style parser *)

Lemma forge_classification_witness :
  exists b,
    afterTransform scp_GitUrlParse is_ipv4_literal sample_base_branch = Ok b
    /\ forgeType b = Some GitHub
    /\ repoBaseUrl b = Some "https://github.com/owner/repo".
Proof.
  destruct (forge_classification scp_GitUrlParse is_ipv4_literal
              sample_base_branch sample_git_url eq_refl)
    as (b & Hb & Hgithub & _ & _ & _ & _ & Hexample).
  exists b. split; [exact Hb|]. split.
  - apply Hgithub. exists "", "". reflexivity.
  - apply Hexample; reflexivity.
Defined.

Lemma no_push_remote_no_urls_witness :
  exists b,
    construct_BaseBranch scp_GitUrlParse is_ipv4_literal
      (sample_base_payload sample_remote_url "" None) = Ok b
    /\ forgeType b = Some GitHub
    /\ branchUrl b (Some "refs/remotes/origin/feature") = None
    /\ commitUrl b "abc123" = None.
Proof.
  destruct (no_push_remote_no_urls scp_GitUrlParse is_ipv4_literal
              (sample_base_payload sample_remote_url "" None) eq_refl)
    as [Hall Hreturns].
  destruct (Hreturns sample_git_url eq_refl) as (b & Hb & Hforge).
  destruct (Hall b Hb) as (_ & _ & _ & _ & Hbranch & Hcommit).
  exists b. split; [exact Hb|]. split; [exact Hforge|].
  split; [apply Hbranch | apply Hcommit].
Defined.

Lemma push_remote_url_handling_witness :
  (exists b0,
      plainToInstance_BaseBranch scp_GitUrlParse
        (sample_base_payload sample_remote_url "" None) = Ok b0
      /\ gitPushRemote b0 = None)
  /\ plainToInstance_BaseBranch scp_GitUrlParse
       (sample_base_payload sample_remote_url "" (Some "not a url"))
     = Throw UrlParseError
  /\ exists b0,
      plainToInstance_BaseBranch scp_GitUrlParse
        (sample_base_payload sample_remote_url "fork"
           (Some "git@github.com:me/repo.git")) = Ok b0
      /\ gitPushRemote b0
         = Some {| GitUrl_protocol := "ssh";
                   GitUrl_resource := "github.com";
                   GitUrl_user := "git";
                   GitUrl_organization := "me";
                   GitUrl_owner := "me";
                   GitUrl_name := "repo" |}.
Proof.
  split; [|split].
  - destruct (proj1 (push_remote_url_handling scp_GitUrlParse is_ipv4_literal
                       (sample_base_payload sample_remote_url "" None))
                    (or_introl eq_refl))
      as (b0 & Hb0 & Hpush & _).
    by exists b0.
  - apply (proj1 (proj2 (push_remote_url_handling scp_GitUrlParse
                           is_ipv4_literal
                           (sample_base_payload sample_remote_url ""
                              (Some "not a url"))))
             "not a url" UrlParseError).
    + reflexivity.
    + discriminate.
    + reflexivity.
  - apply (proj2 (proj2 (push_remote_url_handling scp_GitUrlParse
                           is_ipv4_literal
                           (sample_base_payload sample_remote_url "fork"
                              (Some "git@github.com:me/repo.git"))))
             "git@github.com:me/repo.git").
    + reflexivity.
    + discriminate.
    + reflexivity.
Defined.

(** C6, as the claim has it, fails: with a parser that rejects ["not a url"],
    a payload carrying that string as [pushRemoteUrl] makes deserialization
    throw instead of returning a base branch without push remote. *)
Lemma malformed_push_remote_throws :
  let p := sample_base_payload sample_remote_url "" (Some "not a url") in
  BaseBranchPayload_pushRemoteUrl p = Some "not a url"
  /\ throws (scp_GitUrlParse "not a url")
  /\ plainToInstance_BaseBranch scp_GitUrlParse p = Throw UrlParseError
  /\ construct_BaseBranch scp_GitUrlParse is_ipv4_literal p
     = Throw UrlParseError
  /\ ~ (forall (parse : string -> result GitUrl) (q : BaseBranchPayload)
               (v : string),
          BaseBranchPayload_pushRemoteUrl q = Some v ->
          throws (parse v) ->
          exists b,
            plainToInstance_BaseBranch parse q = Ok b
            /\ gitPushRemote b = None).
Proof.
  intros p.
  assert (throws (scp_GitUrlParse "not a url")) as Hthrows
    by (by exists UrlParseError).
  split; [reflexivity|]. split; [exact Hthrows|].
  split; [reflexivity|]. split; [reflexivity|].
  intros Hclaim.
  destruct (Hclaim scp_GitUrlParse p "not a url" eq_refl Hthrows)
    as (b & Hb & _).
  discriminate Hb.
Qed.

(** * Further properties of the module *)

(** ** Splitting and joining *)

Lemma string_app_assoc (a b c : string) : (a +:+ b) +:+ c = a +:+ b +:+ c.
Proof. induction a as [|x a IH]; [done|]. rewrite !app_cons. by f_equal. Qed.

Lemma string_app_empty_r (a : string) : a +:+ "" = a.
Proof. induction a as [|x a IH]; [done|]. rewrite app_cons. by f_equal. Qed.

Lemma split_nonempty (s : string) (sep : ascii) : split s sep <> [].
Proof.
  destruct s as [|c s]; simpl; [done|].
  case_bool_decide; [done|]. by destruct (split s sep).
Qed.

Lemma concat_cons (sep x : string) (xs : list string) :
  xs <> [] ->
  String.concat sep (x :: xs) = x +:+ sep +:+ String.concat sep xs.
Proof. by destruct xs. Qed.

Lemma concat_snoc (sep x : string) (init : list string) :
  init <> [] ->
  String.concat sep (init ++ [x]) = String.concat sep init +:+ sep +:+ x.
Proof.
  induction init as [|y init IH]; [done|]. intros _.
  destruct init as [|z init]; [done|].
  change ((y :: z :: init) ++ [x]) with (y :: ((z :: init) ++ [x])).
  rewrite concat_cons by done. rewrite IH by done.
  rewrite (concat_cons sep y (z :: init)) by done.
  by rewrite !string_app_assoc.
Qed.

(** Splitting at a separator and joining with it gives the string back. *)
Lemma join_split (s : string) (sep : ascii) :
  join (split s sep) (String sep "") = s.
Proof.
  unfold join. induction s as [|c s IH]; [done|]. simpl.
  pose proof (split_nonempty s sep) as Hne.
  case_bool_decide as Hc.
  - subst c. rewrite concat_cons by done. by rewrite IH.
  - destruct (split s sep) as [|w ws]; [done|].
    destruct ws as [|w' ws]; [simpl in *; by f_equal|].
    rewrite concat_cons by done. rewrite concat_cons in IH by done.
    rewrite app_cons. by f_equal.
Qed.

Lemma occurs_char_empty (c : ascii) : ~ occurs_in (String c "") "".
Proof.
  intros (pre & post & H). unfold occurs_at in H.
  destruct pre; rewrite ?app_cons in H; discriminate.
Qed.

Lemma occurs_char_cons (c x : ascii) (s : string) :
  occurs_in (String c "") (String x s) <-> x = c \/ occurs_in (String c "") s.
Proof.
  split.
  - intros (pre & post & H). unfold occurs_at in H. destruct pre as [|y pre].
    + left. rewrite app_empty_l, app_cons in H. by injection H.
    + right. rewrite app_cons in H. injection H as _ H. by exists pre, post.
  - intros [-> | (pre & post & H)].
    + by exists "", s.
    + exists (String x pre), post. unfold occurs_at in *.
      rewrite app_cons. by f_equal.
Qed.

Lemma occurs_char_app (c : ascii) (a b : string) :
  occurs_in (String c "") (a +:+ String c b).
Proof. by exists a, b. Qed.

(** No part of a split contains the separator. *)
Lemma split_parts_clean (s : string) (sep : ascii) (w : string) :
  w ∈ split s sep -> ~ occurs_in (String sep "") w.
Proof.
  revert w. induction s as [|c s IH]; intros w; simpl.
  - intros ->%list_elem_of_singleton. apply occurs_char_empty.
  - case_bool_decide as Hc.
    + intros [-> | Hw]%elem_of_cons; [apply occurs_char_empty | by apply IH].
    + destruct (split s sep) as [|w0 ws]; [|].
      * intros ->%list_elem_of_singleton. rewrite occurs_char_cons.
        intros [? | ?]; [done|]. by eapply occurs_char_empty.
      * intros [-> | Hw]%elem_of_cons.
        -- rewrite occurs_char_cons. intros [? | Hocc]; [done|].
           apply (IH w0); [by left | done].
        -- apply IH. by right.
Qed.

(** A string without the separator is its only part. *)
Lemma split_clean (s : string) (sep : ascii) :
  ~ occurs_in (String sep "") s -> split s sep = [s].
Proof.
  induction s as [|c s IH]; [done|]. rewrite occurs_char_cons. intros Hno.
  simpl. case_bool_decide as Hc; [tauto|].
  rewrite IH by tauto. done.
Qed.

(** Splitting after a first part that is free of the separator. *)
Lemma split_app (a rest : string) (sep : ascii) :
  ~ occurs_in (String sep "") a ->
  split (a +:+ String sep rest) sep = a :: split rest sep.
Proof.
  induction a as [|c a IH].
  - intros _. rewrite app_empty_l. simpl. by rewrite bool_decide_eq_true_2.
  - rewrite occurs_char_cons. intros Hno. rewrite app_cons. simpl.
    case_bool_decide as Hc; [tauto|]. rewrite IH by tauto. done.
Qed.

Lemma array_slice_init {A} (init : list A) (x : A) :
  array_slice (init ++ [x]) 0 (Some (-1)) = init.
Proof.
  unfold array_slice. rewrite length_app. simpl.
  replace (Z.of_nat (length init + 1) + -1) with (Z.of_nat (length init)) by lia.
  rewrite Z.max_l, Z.min_l by lia.
  rewrite Z.sub_0_r, Nat2Z.id. change (Z.to_nat 0) with 0%nat.
  rewrite drop_0. by rewrite take_app_length.
Qed.

Lemma array_slice_last {A} (init : list A) (x : A) :
  array_slice (init ++ [x]) (-1) None = [x].
Proof.
  unfold array_slice. rewrite length_app. simpl.
  replace (Z.of_nat (length init + 1) + -1) with (Z.of_nat (length init)) by lia.
  rewrite Z.max_l by lia. rewrite Nat2Z.id, drop_app_length.
  replace (Z.to_nat (Z.of_nat (length init + 1) - Z.of_nat (length init)))
    with 1%nat by lia.
  done.
Qed.

(** The last part of a path and the parts before it: the last part is free of
    slashes, and the path is the joined front, a slash, and the last part, or
    the last part alone when the path has no slash. *)
Lemma path_parts (s : string) :
  let parts := split s "/" in
  exists dir name,
    index parts (Z.of_nat (length parts) - 1) = Some name
    /\ index (array_slice parts (-1) None) 0 = Some name
    /\ join (array_slice parts 0 (Some (-1))) "/" = dir
    /\ ~ occurs_in "/" name
    /\ (occurs_in "/" s -> s = dir +:+ "/" +:+ name)
    /\ (~ occurs_in "/" s -> dir = "" /\ name = s).
Proof.
  intros parts.
  destruct (exists_last (split_nonempty s "/")) as (init & name & Hparts).
  fold parts in Hparts.
  pose proof (join_split s "/") as Hjoin. fold parts in Hjoin.
  assert (~ occurs_in "/" name) as Hclean.
  { apply (split_parts_clean s "/"). fold parts. rewrite Hparts.
    apply elem_of_app. right. by left. }
  exists (join init "/"), name. rewrite index_last, Hparts.
  rewrite last_snoc, array_slice_init, array_slice_last.
  split; [done|]. split; [done|]. split; [done|]. split; [done|].
  rewrite Hparts in Hjoin. unfold join in *.
  destruct init as [|d init].
  - simpl in Hjoin. subst name. split; [done|]. by intros _.
  - rewrite concat_snoc in Hjoin by done. split; [by intros _|].
    intros Hno. exfalso. apply Hno. rewrite <- Hjoin. apply occurs_char_app.
Qed.

(** ** File names *)

(** X1. The [filename] of a local file is always defined and free of slashes,
    and [justpath] and [filename] take the path apart without loss: a path
    with a slash is [justpath], a slash, and [filename]; a path without one is
    its own [filename], with an empty [justpath]. *)
Theorem LocalFile_path_decomposition (f : LocalFile) :
  exists name,
    LocalFile_filename f = Some name
    /\ ~ occurs_in "/" name
    /\ (occurs_in "/" (LocalFile_path f) ->
        LocalFile_path f = LocalFile_justpath f +:+ "/" +:+ name)
    /\ (~ occurs_in "/" (LocalFile_path f) ->
        LocalFile_justpath f = "" /\ name = LocalFile_path f).
Proof.
  destruct (path_parts (LocalFile_path f))
    as (dir & name & Hname & _ & Hdir & Hclean & Hslash & Hplain).
  exists name. unfold LocalFile_filename, LocalFile_justpath.
  rewrite Hname, Hdir. split; [done|]. split; [done|]. by split.
Qed.

(** X2. The [shortName] of a base branch is always defined; it is the part of
    [branchName] after its last slash, or all of [branchName] when there is no
    slash. *)
Theorem shortName_last_segment (b : BaseBranch) :
  exists name,
    shortName b = Some name
    /\ ~ occurs_in "/" name
    /\ (occurs_in "/" (branchName b) ->
        exists front, branchName b = front +:+ "/" +:+ name)
    /\ (~ occurs_in "/" (branchName b) -> name = branchName b).
Proof.
  destruct (path_parts (branchName b))
    as (dir & name & _ & Hname & _ & Hclean & Hslash & Hplain).
  exists name. unfold shortName. rewrite Hname.
  split; [done|]. split; [done|]. split.
  - intros H. exists dir. by apply Hslash.
  - intros H. by apply Hplain.
Qed.




(** ** Locked files *)

Lemma fold_left_orb (l : list bool) (acc : bool) :
  fold_left (fun a b => a || b) l acc = acc || existsb (fun b => b) l.
Proof.
  revert acc. induction l as [|x l IH]; intros acc; simpl.
  - by rewrite orb_false_r.
  - rewrite IH. by rewrite orb_assoc.
Qed.

(** X4. A local file is locked exactly when one of its hunks is; a file
    without hunks is not locked. A remote file is never locked. *)
Theorem LocalFile_locked_iff (f : LocalFile) (rf : RemoteFile) :
  (LocalFile_locked f = true
   <-> exists h, h ∈ LocalFile_hunks f /\ Hunk_locked h = true)
  /\ (LocalFile_hunks f = [] -> LocalFile_locked f = false)
  /\ RemoteFile_locked rf = false.
Proof.
  unfold LocalFile_locked. rewrite fold_left_orb. simpl.
  split; [|split; [by intros ->|done]].
  rewrite existsb_exists. split.
  - intros (x & Hin & ->). apply in_map_iff in Hin as (h & Hh & Hin).
    exists h. split; [by apply list_elem_of_In|done].
  - intros (h & Hin & Hh). exists true. split; [|done].
    apply in_map_iff. exists h. split; [done|by apply list_elem_of_In].
Qed.

(** ** Commits of a branch *)

Lemma Commit_status_cases (c : Commit) :
  Commit_status c = local \/ Commit_status c = localAndRemote
  \/ Commit_status c = integrated.
Proof.
  unfold Commit_status. destruct (Commit_isIntegrated c); [tauto|].
  destruct (Commit_isRemote c && _); tauto.
Qed.

Lemma status_is_unfold (s : CommitStatus) (c : Commit) :
  status_is s c
  = match Commit_status c, s with
    | local, local => true
    | localAndRemote, localAndRemote => true
    | integrated, integrated => true
    | remote, remote => true
    | _, _ => false
    end.
Proof. reflexivity. Qed.

Lemma status_is_true (s : CommitStatus) (c : Commit) :
  status_is s c = true <-> Commit_status c = s.
Proof. rewrite status_is_unfold. destruct (Commit_status c), s; by split. Qed.

Lemma filter_by_status_partition (l : list Commit) :
  List.filter (status_is local) l
  ++ List.filter (status_is localAndRemote) l
  ++ List.filter (status_is integrated) l
  ≡ₚ l.
Proof.
  induction l as [|c l IH]; [done|]. simpl. rewrite !status_is_unfold.
  destruct (Commit_status_cases c) as [E | [E | E]]; rewrite E; simpl.
  - by constructor.
  - rewrite <- Permutation_middle. by constructor.
  - rewrite app_assoc, <- Permutation_middle, <- app_assoc. by constructor.
Qed.

(** X5. The three commit lists of a branch partition its commits: taken
    together they are the commits of the branch, each as often as it is
    stored, and no commit is in two of them. *)
Theorem Branch_commits_partition (b : Branch) :
  Branch_localCommits b ++ Branch_remoteCommits b ++ Branch_integratedCommits b
  ≡ₚ Branch_commits b
  /\ (length (Branch_localCommits b) + length (Branch_remoteCommits b)
      + length (Branch_integratedCommits b)
      = length (Branch_commits b))%nat
  /\ (forall c,
        ~ (c ∈ Branch_localCommits b /\ c ∈ Branch_remoteCommits b)
        /\ ~ (c ∈ Branch_localCommits b /\ c ∈ Branch_integratedCommits b)
        /\ ~ (c ∈ Branch_remoteCommits b /\ c ∈ Branch_integratedCommits b)).
Proof.
  unfold Branch_localCommits, Branch_remoteCommits, Branch_integratedCommits.
  pose proof (filter_by_status_partition (Branch_commits b)) as Hperm.
  split; [done|]. split.
  - apply Permutation_length in Hperm. rewrite !length_app in Hperm. lia.
  - intros c. rewrite !list_elem_of_In, !filter_In, !status_is_true.
    repeat split; intros [[_ H1] [_ H2]]; congruence.
Qed.

(** X6. A commit for which [isLocal] holds has status [local]; together with
    C10 this makes [isLocal] strictly stronger than a [local] status. *)
Theorem isLocal_status_local (c : Commit) :
  Commit_isLocal c = true -> Commit_status c = local.
Proof.
  unfold Commit_isLocal, Commit_status.
  by destruct (Commit_isRemote c), (Commit_isIntegrated c).
Qed.

Lemma isLocal_status_local_witness :
  Commit_status (sample_commit "c1" false false None) = local.
Proof. apply isLocal_status_local. reflexivity. Defined.

(** ** Commit comparison is not transitive *)

Lemma commitCompare_true (a b : AnyCommit) :
  commitCompare a b = true
  <-> AnyCommit_id a = AnyCommit_id b
      \/ (truthy (AnyCommit_changeId a) = true
          /\ truthy (AnyCommit_changeId b) = true
          /\ AnyCommit_changeId a = AnyCommit_changeId b).
Proof.
  unfold commitCompare. rewrite <- !strict_eq_true.
  destruct (strict_eq (AnyCommit_id a) (AnyCommit_id b)); [tauto|].
  destruct (truthy (AnyCommit_changeId a)), (truthy (AnyCommit_changeId b)),
    (strict_eq (AnyCommit_changeId a) (AnyCommit_changeId b));
    simpl; intuition discriminate.
Qed.

(** X7. [commitCompare] is not an equivalence: it is not transitive, because a
    commit can match one commit by id and another by change id. Through a
    middle commit whose change id is empty it is transitive. *)
Theorem commitCompare_transitivity :
  (forall a b c : AnyCommit,
      AnyCommit_changeId b = "" ->
      commitCompare a b = true -> commitCompare b c = true ->
      commitCompare a c = true)
  /\ ~ (forall a b c : AnyCommit,
          commitCompare a b = true -> commitCompare b c = true ->
          commitCompare a c = true).
Proof.
  split.
  - intros a b c Hempty. rewrite !commitCompare_true, Hempty. simpl.
    intros [Hab | (_ & ? & _)] [Hbc | (? & _)]; try discriminate.
    left. congruence.
  - intros H.
    specialize (H (sample_any_commit "1" "") (sample_any_commit "1" "k")
                  (sample_any_commit "2" "k") eq_refl eq_refl).
    vm_compute in H. discriminate H.
Qed.

Lemma commitCompare_transitivity_witness :
  commitCompare (sample_any_commit "1" "k") (sample_any_commit "1" "k2") = true.
Proof.
  apply (proj1 commitCompare_transitivity
           (sample_any_commit "1" "k") (sample_any_commit "1" "")
           (sample_any_commit "1" "k2")); reflexivity.
Defined.

(** ** Display names *)

Lemma occurs_at_inj (pat s pre post pre' post' : string) :
  occurs_at pat s pre post -> occurs_at pat s pre' post' ->
  String.length pre = String.length pre' ->
  pre = pre' /\ post = post'.
Proof.
  unfold occurs_at. intros -> H. revert pre' H.
  induction pre as [|c pre IH]; intros [|c' pre'] H Hlen; try discriminate.
  - rewrite !app_empty_l in H. split; [done|]. by eapply String.app_inj.
  - rewrite !app_cons in H. injection H as -> H. injection Hlen as Hlen.
    destruct (IH _ H Hlen) as [-> ->]. done.
Qed.

(** [without_first] leaves one result only. *)
Lemma without_first_functional (pat s a b : string) :
  without_first pat s a -> without_first pat s b -> a = b.
Proof.
  intros [[Hno ->] | (pre & post & Hocc & Hmin & ->)]
         [[Hno' ->] | (pre' & post' & Hocc' & Hmin' & ->)].
  - done.
  - exfalso. apply Hno. by exists pre', post'.
  - exfalso. apply Hno'. by exists pre, post.
  - pose proof (Hmin _ _ Hocc'). pose proof (Hmin' _ _ Hocc).
    destruct (occurs_at_inj _ _ _ _ _ _ Hocc Hocc') as [-> ->]; [lia|done].
Qed.

Lemma replace_absent (s pat : string) :
  ~ occurs_in pat s -> replace s pat "" = s.
Proof.
  intros Hno. apply (without_first_functional pat s).
  - apply replace_without_first.
  - left. by split.
Qed.

(** X8. The [displayName] of a remote branch is its name with
    ["refs/remotes/"] and then ["refs/heads/"] cut out at their first
    occurrence. It keeps the remote: the [displayName] of the branch data
    with the same name, which cuts ["origin/"] out in between, is the same
    exactly in so far as ["origin/"] does not occur after the first cut. *)
Theorem RemoteBranch_displayName_spec (rb : RemoteBranch)
    (d : RemoteBranchData) :
  RemoteBranchData_name d = RemoteBranch_name rb ->
  exists s1,
    without_first "refs/remotes/" (RemoteBranch_name rb) s1
    /\ without_first "refs/heads/" s1 (RemoteBranch_displayName rb)
    /\ (~ occurs_in "origin/" s1 ->
        RemoteBranchData_displayName d = RemoteBranch_displayName rb).
Proof.
  intros Hname. exists (replace (RemoteBranch_name rb) "refs/remotes/" "").
  unfold RemoteBranch_displayName, RemoteBranchData_displayName.
  split; [apply replace_without_first|].
  split; [apply replace_without_first|].
  intros Hno. rewrite Hname. by rewrite (replace_absent _ "origin/").
Qed.

Lemma RemoteBranch_displayName_spec_witness :
  exists s1,
    without_first "refs/remotes/" "refs/remotes/upstream/feature" s1
    /\ without_first "refs/heads/" s1
         (RemoteBranch_displayName
            (sample_remote_branch "refs/remotes/upstream/feature"))
    /\ (~ occurs_in "origin/" s1 ->
        RemoteBranchData_displayName
          (sample_branch_data "refs/remotes/upstream/feature" [])
        = RemoteBranch_displayName
            (sample_remote_branch "refs/remotes/upstream/feature")).
Proof.
  apply (RemoteBranch_displayName_spec
           (sample_remote_branch "refs/remotes/upstream/feature")
           (sample_branch_data "refs/remotes/upstream/feature" [])).
  reflexivity.
Defined.

(** X9. The [displayName] of a branch is one of three strings: the
    [displayName] of its upstream, its [upstreamName], or its [name]; and it is
    not empty unless [name] is. *)
Theorem Branch_displayName_source (b : Branch) :
  (Branch_displayName b = Branch_name b
   \/ Branch_upstreamName b = Some (Branch_displayName b)
   \/ exists u, Branch_upstream b = Some u
                /\ Branch_displayName b = RemoteBranch_displayName u)
  /\ (Branch_name b <> "" -> Branch_displayName b <> "").
Proof.
  unfold Branch_displayName. split.
  - destruct (Branch_upstream b) as [u|].
    + destruct (truthy (RemoteBranch_displayName u)); [right; right; by exists u|].
      destruct (Branch_upstreamName b) as [n|]; [|by left].
      destruct (truthy n); [right; by left | by left].
    + destruct (Branch_upstreamName b) as [n|]; [|by left].
      destruct (truthy n); [right; by left | by left].
  - intros Hname.
    assert (match Branch_upstreamName b with
            | Some n => if truthy n then n else Branch_name b
            | None => Branch_name b
            end <> "") as Hfallback.
    { destruct (Branch_upstreamName b) as [n|]; [|done].
      destruct (truthy n) eqn:E; [by apply truthy_true|done]. }
    destruct (Branch_upstream b) as [u|]; [|done].
    destruct (truthy (RemoteBranch_displayName u)) eqn:E; [|done].
    by apply truthy_true.
Qed.

(** ** Authors and commits *)

Lemma first_by_email_length (arr seen : list Author) :
  (length (first_by_email seen arr) <= length arr)%nat.
Proof.
  revert seen. induction arr as [|a arr IH]; intros seen; simpl; [done|].
  specialize (IH (seen ++ [a])).
  destruct (decide (Author_email a ∈ map Author_email seen)); simpl; lia.
Qed.

(** X10. There are never more authors than commits ([ahead]), and there is no
    author exactly when there is no commit. *)
Theorem authors_bounded_by_ahead (d : RemoteBranchData) :
  Z.of_nat (length (RemoteBranchData_authors d)) <= RemoteBranchData_ahead d
  /\ (RemoteBranchData_authors d = [] <-> RemoteBranchData_commits d = []).
Proof.
  rewrite authors_first_by_email. unfold RemoteBranchData_ahead. split.
  - pose proof (first_by_email_length
                  (map RemoteCommit_author (RemoteBranchData_commits d)) []) as H.
    rewrite length_map in H. lia.
  - destruct (RemoteBranchData_commits d) as [|c cs]; [done|]. simpl.
    split; discriminate.
Qed.

(** ** The hook of the base branch *)

Section HookProperties.

Variable GitUrlParse : string -> result GitUrl.
Variable ipv4Regex_test : string -> bool.

Local Abbreviation run_hook := (afterTransform GitUrlParse ipv4Regex_test).
Local Abbreviation build := (construct_BaseBranch GitUrlParse ipv4Regex_test).

Lemma commit_url_fields_pushed (this : BaseBranch) (r : GitUrl)
    (forge : ForgeType) :
  gitPushRemote this = Some r ->
  let host :=
    if strict_eq (GitUrl_protocol r) "ssh"
       && startsWith (GitUrl_resource r) "ssh."
    then slice (GitUrl_resource r) 4 else GitUrl_resource r in
  let web := if ipv4Regex_test (GitUrl_resource r) then "http" else "https" in
  commit_url_fields ipv4Regex_test this forge
  = (Some (match forge with
           | AzureDevOps =>
               web +:+ "://" +:+ host +:+ "/" +:+ GitUrl_organization r
                 +:+ "/" +:+ GitUrl_owner r +:+ "/_git/" +:+ GitUrl_name r
           | _ =>
               web +:+ "://" +:+ host +:+ "/" +:+ GitUrl_owner r +:+ "/"
                 +:+ GitUrl_name r
           end),
     Some (match forge with
           | Bitbucket => commits_path
           | GitLab => dash_commit_path
           | _ => commit_path
           end)).
Proof.
  intros Hr. unfold commit_url_fields. rewrite Hr. by destruct forge.
Qed.

Lemma branch_url_field_pushed (this : BaseBranch) (r : GitUrl)
    (forge : ForgeType) :
  gitPushRemote this = Some r -> is_Some (branch_url_field this forge).
Proof.
  intros Hr. unfold branch_url_field. rewrite Hr.
  destruct (truthy (pushRemoteName this)), forge,
    (generateBranchUrl this); by eexists.
Qed.

(** X11. The hook is idempotent: run again on the object it returned, it
    returns that object unchanged. *)
Theorem afterTransform_idempotent (this b : BaseBranch) :
  run_hook this = Ok b -> run_hook b = Ok b.
Proof.
  intros Hb.
  destruct (afterTransform_parsed _ _ _ _ Hb) as [g Hg].
  revert Hb. unfold afterTransform. rewrite Hg. simpl.
  destruct (commit_url_fields ipv4Regex_test this
              (getForgeType (GitUrl_resource g))) as [base gen] eqn:Hfields.
  intros [= <-]. simpl. rewrite Hg. simpl.
  unfold commit_url_fields, branch_url_field in *. simpl.
  destruct (gitPushRemote this) as [r|].
  - injection Hfields as <- <-.
    by destruct (truthy (pushRemoteName this)),
         (getForgeType (GitUrl_resource g)), (generateBranchUrl this).
  - by injection Hfields as <- <-.
Qed.

(** X12. The forge and [repoBaseUrl] depend on [remoteUrl] alone: two objects
    with the same [remoteUrl] leave the hook with the same [forgeType] and the
    same [repoBaseUrl], whatever their push remotes are. *)
Theorem forge_from_remoteUrl_alone (this1 this2 b1 b2 : BaseBranch) :
  remoteUrl this1 = remoteUrl this2 ->
  run_hook this1 = Ok b1 -> run_hook this2 = Ok b2 ->
  forgeType b1 = forgeType b2 /\ repoBaseUrl b1 = repoBaseUrl b2.
Proof.
  intros Hurl H1 H2.
  destruct (afterTransform_parsed _ _ _ _ H1) as [g Hg1].
  assert (GitUrlParse (remoteUrl this2) = Ok g) as Hg2 by by rewrite <- Hurl.
  destruct (afterTransform_fields _ _ _ _ _ Hg1 H1) as (-> & -> & _).
  by destruct (afterTransform_fields _ _ _ _ _ Hg2 H2) as (-> & -> & _).
Qed.

(** X13. Once the hook has run on an object with a push remote, [commitUrl] is
    [commitBaseUrl], a path chosen by the forge of [remoteUrl]
    ([/commits/] for Bitbucket, [/-/commit/] for GitLab, [/commit/] for every
    other forge), and the commit id. *)
Theorem commitUrl_shape (this b : BaseBranch) (r : GitUrl) (commitId : string) :
  run_hook this = Ok b ->
  gitPushRemote this = Some r ->
  exists forge base,
    forgeType b = Some forge
    /\ commitBaseUrl b = Some base
    /\ commitUrl b commitId
       = Some (base
               +:+ match forge with
                   | Bitbucket => "/commits/"
                   | GitLab => "/-/commit/"
                   | _ => "/commit/"
                   end
               +:+ commitId).
Proof.
  intros Hb Hr.
  destruct (afterTransform_parsed _ _ _ _ Hb) as [g Hg].
  destruct (afterTransform_fields _ _ _ _ _ Hg Hb)
    as (Hforge & _ & _ & Hbase & Hgen & _).
  rewrite (commit_url_fields_pushed _ _ _ Hr) in Hbase, Hgen. simpl in *.
  eexists _, _. split; [exact Hforge|]. split; [exact Hbase|].
  unfold commitUrl. rewrite Hgen.
  unfold call_generateCommitUrl. rewrite Hbase.
  by destruct (getForgeType (GitUrl_resource g)).
Qed.

(** X14. When the push remote is the remote itself, the forge is not Azure
    DevOps and the host carries no [ssh.] prefix under the [ssh] protocol,
    [commitBaseUrl] is [repoBaseUrl]. *)
Theorem commitBaseUrl_is_repoBaseUrl (this b : BaseBranch) (g : GitUrl) :
  run_hook this = Ok b ->
  GitUrlParse (remoteUrl this) = Ok g ->
  gitPushRemote this = Some g ->
  forgeType b <> Some AzureDevOps ->
  strict_eq (GitUrl_protocol g) "ssh" && startsWith (GitUrl_resource g) "ssh."
  = false ->
  commitBaseUrl b = repoBaseUrl b.
Proof.
  intros Hb Hg Hr Hforge Hssh.
  destruct (afterTransform_fields _ _ _ _ _ Hg Hb)
    as (Hf & -> & _ & -> & _).
  rewrite (commit_url_fields_pushed _ _ _ Hr). simpl. rewrite Hssh.
  rewrite Hf in Hforge.
  by destruct (getForgeType (GitUrl_resource g)).
Qed.

(** X15. Under the [ssh] protocol a leading [ssh.] is dropped from the host of
    [commitBaseUrl], while the choice between [http] and [https] is made on
    the host as parsed, prefix included. *)
Theorem commitBaseUrl_drops_ssh_prefix (this b : BaseBranch) (r : GitUrl)
    (host : string) :
  run_hook this = Ok b ->
  gitPushRemote this = Some r ->
  GitUrl_protocol r = "ssh" ->
  GitUrl_resource r = "ssh." +:+ host ->
  forgeType b <> Some AzureDevOps ->
  commitBaseUrl b
  = Some ((if ipv4Regex_test ("ssh." +:+ host) then "http" else "https")
          +:+ "://" +:+ host +:+ "/" +:+ GitUrl_owner r +:+ "/"
          +:+ GitUrl_name r).
Proof.
  intros Hb Hr Hproto Hres Hforge.
  destruct (afterTransform_parsed _ _ _ _ Hb) as [g Hg].
  destruct (afterTransform_fields _ _ _ _ _ Hg Hb)
    as (Hf & _ & _ & -> & _).
  rewrite (commit_url_fields_pushed _ _ _ Hr). simpl.
  rewrite Hproto, Hres. rewrite Hf in Hforge.
  assert (startsWith ("ssh." +:+ host) "ssh." = true) as ->
    by (apply prefix_spec; by exists host).
  change (strict_eq "ssh" "ssh" && true) with true. simpl.
  change 4%nat with (String.length "ssh."). rewrite slice_app.
  by destruct (getForgeType (GitUrl_resource g)).
Qed.

Lemma construct_inv (p : BaseBranchPayload) (b : BaseBranch) :
  build p = Ok b ->
  exists b0,
    plainToInstance_BaseBranch GitUrlParse p = Ok b0
    /\ run_hook b0 = Ok b
    /\ generateCommitUrl b0 = None
    /\ generateBranchUrl b0 = None
    /\ (is_Some (gitPushRemote b0)
        <-> exists v, BaseBranchPayload_pushRemoteUrl p = Some v /\ v <> "").
Proof.
  unfold construct_BaseBranch, plainToInstance_BaseBranch,
    gitPushRemote_transform.
  destruct (BaseBranchPayload_pushRemoteUrl p) as [v|].
  - destruct (truthy v) eqn:Hv.
    + destruct (GitUrlParse v) as [r|e]; simpl; [|done].
      intros Hb. eexists. split; [done|]. split; [exact Hb|]. simpl.
      split; [done|]. split; [done|]. split; [|by eexists].
      intros _. exists v. split; [done|]. by apply truthy_true.
    + simpl. intros Hb. eexists. split; [done|]. split; [exact Hb|]. simpl.
      split; [done|]. split; [done|]. split; [by intros [? ?]|].
      intros (v' & [= <-] & Hne). apply truthy_true in Hne. congruence.
  - simpl. intros Hb. eexists. split; [done|]. split; [exact Hb|]. simpl.
    split; [done|]. split; [done|]. split; [by intros [? ?]|].
    by intros (v' & ? & _).
Qed.

(** X16. For a base branch built from a payload, the two URL getters are
    defined exactly where the push remote allows: [commitUrl] returns a URL
    if and only if the payload carried a non-empty [pushRemoteUrl], and
    [branchUrl] if and only if it did and the upstream branch name is a
    non-empty string. *)
Theorem url_getters_defined (p : BaseBranchPayload) (b : BaseBranch) :
  build p = Ok b ->
  let pushed :=
    exists v, BaseBranchPayload_pushRemoteUrl p = Some v /\ v <> "" in
  (forall commitId, is_Some (commitUrl b commitId) <-> pushed)
  /\ (forall x,
        is_Some (branchUrl b x)
        <-> pushed /\ exists u, x = Some u /\ u <> "").
Proof.
  intros Hb pushed.
  destruct (construct_inv p b Hb) as (b0 & _ & Hhook & Hgen0 & Hbr0 & Hpush).
  destruct (afterTransform_parsed _ _ _ _ Hhook) as [g Hg].
  destruct (afterTransform_fields _ _ _ _ _ Hg Hhook)
    as (_ & _ & Hpush' & _ & Hgen & Hbr).
  fold pushed in Hpush. clearbody pushed.
  unfold commitUrl, branchUrl. rewrite Hgen, Hbr, Hpush'.
  destruct (gitPushRemote b0) as [r|] eqn:Hr.
  - assert pushed as Hyes by (apply Hpush; by eexists).
    rewrite (commit_url_fields_pushed _ _ _ Hr). simpl.
    destruct (branch_url_field_pushed b0 r (getForgeType (GitUrl_resource g)) Hr)
      as [gen ->].
    split.
    + intros commitId. split; [done|]. intros _. by eexists.
    + intros [u|].
      * destruct (truthy u) eqn:Hu.
        -- split; [|by eexists]. intros _. split; [done|].
           exists u. split; [done|]. by apply truthy_true.
        -- split; [by intros [? ?]|]. intros (_ & u' & [= <-] & Hne).
           apply truthy_true in Hne. congruence.
      * split; [by intros [? ?]|]. by intros (_ & u' & ? & _).
  - assert (~ pushed) as Hno.
    { intros H. apply Hpush in H. by destruct H as [? ?]. }
    unfold commit_url_fields, branch_url_field. rewrite Hr, Hgen0, ?Hbr0. simpl.
    split.
    + intros commitId. split; [by intros [? ?]|done].
    + intros x. split; [|by intros [? _]].
      destruct x; by intros [? ?].
Qed.

End HookProperties.

Lemma afterTransform_idempotent_witness :
  exists b,
    afterTransform scp_GitUrlParse is_ipv4_literal sample_base_branch_same_push
    = Ok b
    /\ afterTransform scp_GitUrlParse is_ipv4_literal b = Ok b.
Proof.
  eexists. split; [reflexivity|].
  apply (afterTransform_idempotent scp_GitUrlParse is_ipv4_literal
           sample_base_branch_same_push).
  reflexivity.
Defined.

Lemma forge_from_remoteUrl_alone_witness :
  exists b1 b2,
    afterTransform scp_GitUrlParse is_ipv4_literal sample_base_branch = Ok b1
    /\ afterTransform scp_GitUrlParse is_ipv4_literal
         sample_base_branch_same_push = Ok b2
    /\ forgeType b1 = forgeType b2 /\ repoBaseUrl b1 = repoBaseUrl b2.
Proof.
  eexists _, _. split; [reflexivity|]. split; [reflexivity|].
  apply (forge_from_remoteUrl_alone scp_GitUrlParse is_ipv4_literal
           sample_base_branch sample_base_branch_same_push); reflexivity.
Defined.

Lemma commitUrl_shape_witness :
  exists b forge base,
    afterTransform scp_GitUrlParse is_ipv4_literal sample_base_branch_same_push
    = Ok b
    /\ forgeType b = Some forge
    /\ commitBaseUrl b = Some base
    /\ commitUrl b "abc123"
       = Some (base
               +:+ match forge with
                   | Bitbucket => "/commits/"
                   | GitLab => "/-/commit/"
                   | _ => "/commit/"
                   end
               +:+ "abc123").
Proof.
  eexists.
  destruct (commitUrl_shape scp_GitUrlParse is_ipv4_literal
              sample_base_branch_same_push _ sample_git_url "abc123"
              eq_refl eq_refl) as (forge & base & H1 & H2 & H3).
  exists forge, base. split; [reflexivity|]. by repeat split.
Defined.

Lemma commitBaseUrl_is_repoBaseUrl_witness :
  exists b,
    afterTransform scp_GitUrlParse is_ipv4_literal sample_base_branch_same_push
    = Ok b
    /\ commitBaseUrl b = repoBaseUrl b.
Proof.
  eexists. split; [reflexivity|].
  apply (commitBaseUrl_is_repoBaseUrl scp_GitUrlParse is_ipv4_literal
           sample_base_branch_same_push _ sample_git_url);
    try reflexivity.
  simpl. discriminate.
Defined.

Lemma url_getters_defined_witness :
  exists b,
    construct_BaseBranch scp_GitUrlParse is_ipv4_literal
      (sample_base_payload sample_remote_url "fork"
         (Some "git@github.com:me/repo.git")) = Ok b
    /\ (is_Some (commitUrl b "abc123")
        <-> exists v, Some "git@github.com:me/repo.git" = Some v /\ v <> "").
Proof.
  eexists. split; [reflexivity|].
  apply (url_getters_defined scp_GitUrlParse is_ipv4_literal
           (sample_base_payload sample_remote_url "fork"
              (Some "git@github.com:me/repo.git"))).
  reflexivity.
Defined.

Lemma commitBaseUrl_drops_ssh_prefix_witness :
  exists b,
    afterTransform scp_GitUrlParse is_ipv4_literal
      (sample_deserialized_branch (Some sample_ssh_git_url)) = Ok b
    /\ commitBaseUrl b = Some "https://github.com/owner/repo".
Proof.
  eexists. split; [reflexivity|].
  apply (commitBaseUrl_drops_ssh_prefix scp_GitUrlParse is_ipv4_literal
           (sample_deserialized_branch (Some sample_ssh_git_url)) _
           sample_ssh_git_url "github.com"); try reflexivity.
  simpl. discriminate.
Defined.

(** ** Branch URLs *)

Lemma split_app_slash (a rest : string) :
  ~ occurs_in "/" a -> split (a +:+ "/" +:+ rest) "/" = a :: split rest "/".
Proof. apply split_app. Qed.

Lemma truthy_app_slash (a rest : string) : truthy (a +:+ "/" +:+ rest) = true.
Proof. by destruct a. Qed.

Lemma branchUrl_call (this : BaseBranch) (r : GitUrl) (g : BranchUrlGenerator)
    (u : string) :
  gitPushRemote this = Some r -> generateBranchUrl this = Some g ->
  truthy u = true ->
  branchUrl this (Some u)
  = Some (call_generateBranchUrl g this
            (interp (index (split (branchName this) "/") 1))
            (join (drop 3 (split u "/")) "/")).
Proof. intros Hr Hg Hu. unfold branchUrl. by rewrite Hr, Hg, Hu. Qed.

Lemma upstream_branch_part (a b c rest : string) :
  ~ occurs_in "/" a -> ~ occurs_in "/" b -> ~ occurs_in "/" c ->
  join (drop 3 (split (a +:+ "/" +:+ b +:+ "/" +:+ c +:+ "/" +:+ rest) "/")) "/"
  = rest.
Proof.
  intros Ha Hb Hc. rewrite !split_app_slash by done. simpl.
  apply (join_split rest "/").
Qed.

(** X17. With a push remote and a branch generator in place, [branchUrl]
    calls the generator on the second segment of [branchName] and on the
    upstream name without its first three segments: for the base branch
    [remote/base] and the upstream [a/b/c/rest], on [base] and [rest], where
    [rest] may itself contain slashes. *)
Theorem branchUrl_segments (this : BaseBranch) (r : GitUrl)
    (g : BranchUrlGenerator) (remote base a b c rest : string) :
  gitPushRemote this = Some r ->
  generateBranchUrl this = Some g ->
  branchName this = remote +:+ "/" +:+ base ->
  ~ occurs_in "/" remote -> ~ occurs_in "/" base ->
  ~ occurs_in "/" a -> ~ occurs_in "/" b -> ~ occurs_in "/" c ->
  branchUrl this (Some (a +:+ "/" +:+ b +:+ "/" +:+ c +:+ "/" +:+ rest))
  = Some (call_generateBranchUrl g this base rest).
Proof.
  intros Hr Hg Hname Hremote Hbase Ha Hb Hc.
  rewrite (branchUrl_call this r g) by (done || apply truthy_app_slash).
  rewrite upstream_branch_part by done.
  rewrite Hname, split_app_slash, (split_clean base) by done. done.
Qed.

Lemma branchUrl_segments_witness :
  branchUrl (sample_pushed_branch "origin/master")
    (Some "refs/remotes/origin/feat/x")
  = Some "https://github.com/owner/repo/compare/master...git:repo:feat/x".
Proof.
  refine (branchUrl_segments (sample_pushed_branch "origin/master")
            sample_fork_git_url (fork_compare "git" "repo")
            "origin" "master" "refs" "remotes" "origin" "feat/x"
            eq_refl eq_refl eq_refl _ _ _ _ _);
    apply includes_false; reflexivity.
Defined.

(** X18. Edge cases of [branchUrl]. When [branchName] has no slash there is no
    second segment and the generator receives the text [undefined] as base
    name; segments of [branchName] after the second are dropped; and an
    upstream name without a slash leaves an empty branch name. *)
Theorem branchUrl_edge_cases (this : BaseBranch) (r : GitUrl)
    (g : BranchUrlGenerator) (a b c rest : string) :
  gitPushRemote this = Some r ->
  generateBranchUrl this = Some g ->
  ~ occurs_in "/" a -> ~ occurs_in "/" b -> ~ occurs_in "/" c ->
  let upstream := a +:+ "/" +:+ b +:+ "/" +:+ c +:+ "/" +:+ rest in
  (~ occurs_in "/" (branchName this) ->
   branchUrl this (Some upstream)
   = Some (call_generateBranchUrl g this "undefined" rest))
  /\ (forall remote base more,
        branchName this = remote +:+ "/" +:+ base +:+ "/" +:+ more ->
        ~ occurs_in "/" remote -> ~ occurs_in "/" base ->
        branchUrl this (Some upstream)
        = Some (call_generateBranchUrl g this base rest))
  /\ (forall remote base u,
        branchName this = remote +:+ "/" +:+ base ->
        ~ occurs_in "/" remote -> ~ occurs_in "/" base ->
        u <> "" -> ~ occurs_in "/" u ->
        branchUrl this (Some u)
        = Some (call_generateBranchUrl g this base "")).
Proof.
  intros Hr Hg Ha Hb Hc upstream. subst upstream. split; [|split].
  - intros Hno.
    rewrite (branchUrl_call this r g) by (done || apply truthy_app_slash).
    rewrite upstream_branch_part by done.
    by rewrite (split_clean (branchName this)) by done.
  - intros remote base more Hname Hremote Hbase.
    rewrite (branchUrl_call this r g) by (done || apply truthy_app_slash).
    rewrite upstream_branch_part by done.
    rewrite Hname, !split_app_slash by done. done.
  - intros remote base u Hname Hremote Hbase Hu Hclean.
    rewrite (branchUrl_call this r g) by (done || by apply truthy_true).
    rewrite Hname, split_app_slash, (split_clean base) by done.
    by rewrite (split_clean u) by done.
Qed.

Lemma branchUrl_edge_cases_witness :
  branchUrl (sample_pushed_branch "master") (Some "refs/remotes/origin/feat/x")
  = Some "https://github.com/owner/repo/compare/undefined...git:repo:feat/x"
  /\ branchUrl (sample_pushed_branch "origin/release/1.0")
       (Some "refs/remotes/origin/feat/x")
     = Some "https://github.com/owner/repo/compare/release...git:repo:feat/x"
  /\ branchUrl (sample_pushed_branch "origin/master") (Some "feat")
     = Some "https://github.com/owner/repo/compare/master...git:repo:".
Proof.
  assert (forall s, includes s "/" = false -> ~ occurs_in "/" s) as Hclean
    by (intros s; apply includes_false).
  pose (cases := fun name =>
    branchUrl_edge_cases (sample_pushed_branch name) sample_fork_git_url
      (fork_compare "git" "repo")
      "refs" "remotes" "origin" "feat/x" eq_refl eq_refl
      (Hclean "refs" eq_refl) (Hclean "remotes" eq_refl)
      (Hclean "origin" eq_refl)).
  split; [|split].
  - exact (proj1 (cases "master")
             (Hclean "master" eq_refl)).
  - exact (proj1 (proj2 (cases "origin/release/1.0"))
             "origin" "release" "1.0" eq_refl
             (Hclean "origin" eq_refl) (Hclean "release" eq_refl)).
  - refine (proj2 (proj2 (cases "origin/master"))
              "origin" "master" "feat" eq_refl
              (Hclean "origin" eq_refl) (Hclean "master" eq_refl) _
              (Hclean "feat" eq_refl)).
    discriminate.
Defined.

(** ** Last fetch and parents *)

(** X19. [lastFetched] is undefined exactly when [lastFetchedMs] is undefined
    or zero; any other value becomes the date with that time value. *)
Theorem lastFetched_defined (b : BaseBranch) :
  (lastFetched b = None
   <-> lastFetchedMs b = None \/ lastFetchedMs b = Some 0)
  /\ (forall ms,
        lastFetchedMs b = Some ms -> ms <> 0 ->
        lastFetched b = Some (newDate ms)).
Proof.
  unfold lastFetched. split.
  - destruct (lastFetchedMs b) as [ms|]; [|by split; [left|]].
    destruct (Z.eqb_spec ms 0) as [-> | Hne].
    + split; [by right|done].
    + split; [done|]. intros [? | [= ?]]; done.
  - intros ms -> Hne. by destruct (Z.eqb_spec ms 0).
Qed.

Lemma isParentOf_elem (this child : Commit) :
  Commit_isParentOf this child = true
  <-> Commit_id this ∈ Commit_parentIds child.
Proof.
  unfold Commit_isParentOf. rewrite existsb_exists, list_elem_of_In. split.
  - by intros (x & Hin & <-%strict_eq_true).
  - intros Hin. exists (Commit_id this). split; [done|]. by apply strict_eq_true.
Qed.

(** X20. A commit that has two parents with different ids is a merge
    commit. *)
Theorem two_parents_merge_commit (p q child : Commit) :
  Commit_isParentOf p child = true ->
  Commit_isParentOf q child = true ->
  Commit_id p <> Commit_id q ->
  Commit_isMergeCommit child = true.
Proof.
  rewrite !isParentOf_elem. unfold Commit_isMergeCommit.
  intros Hp Hq Hne. apply Z.ltb_lt.
  destruct (Commit_parentIds child) as [|x [|y l]]; simpl length; [| |lia].
  - by apply elem_of_nil in Hp.
  - apply list_elem_of_singleton in Hp, Hq. congruence.
Qed.

Lemma two_parents_merge_commit_witness :
  Commit_isMergeCommit (sample_commit_with_parents "m" ["p1"; "p2"]) = true.
Proof.
  apply (two_parents_merge_commit
           (sample_commit_with_parents "p1" [])
           (sample_commit_with_parents "p2" [])
           (sample_commit_with_parents "m" ["p1"; "p2"])).
  - reflexivity.
  - reflexivity.
  - simpl. discriminate.
Defined.

(** ** The branch generator chosen by the hook *)

(** X21. On an object with a push remote and no branch generator yet, the hook
    installs the generator of the forge: the fork comparison for GitHub with a
    push remote name, the destination form for Bitbucket, the version
    comparison for Azure DevOps, the plain comparison otherwise. A generator
    that is already in place is kept, whatever the forge, except that GitHub
    with a push remote name installs the fork comparison again. *)
Theorem generateBranchUrl_chosen (GitUrlParse : string -> result GitUrl)
    (ipv4Regex_test : string -> bool) (this b : BaseBranch) (r : GitUrl) :
  afterTransform GitUrlParse ipv4Regex_test this = Ok b ->
  gitPushRemote this = Some r ->
  exists forge,
    forgeType b = Some forge
    /\ (generateBranchUrl this = None ->
        generateBranchUrl b
        = Some match forge with
               | GitHub =>
                   if truthy (pushRemoteName this)
                   then fork_compare (GitUrl_user r) (GitUrl_name r)
                   else compare_path
               | Bitbucket => branch_dest
               | AzureDevOps => branch_compare_versions
               | GitLab | Unknown => compare_path
               end)
    /\ (forall g0,
          generateBranchUrl this = Some g0 ->
          forge <> GitHub \/ pushRemoteName this = "" ->
          generateBranchUrl b = Some g0).
Proof.
  intros Hb Hr.
  destruct (afterTransform_parsed _ _ _ _ Hb) as [g Hg].
  destruct (afterTransform_fields _ _ _ _ _ Hg Hb)
    as (Hforge & _ & _ & _ & _ & ->).
  exists (getForgeType (GitUrl_resource g)). split; [done|].
  unfold branch_url_field. rewrite Hr. split.
  - intros ->.
    by destruct (truthy (pushRemoteName this)),
         (getForgeType (GitUrl_resource g)).
  - intros g0 -> [Hne | ->].
    + destruct (truthy (pushRemoteName this)),
        (getForgeType (GitUrl_resource g)); done.
    + done.
Qed.

Lemma generateBranchUrl_chosen_witness :
  (exists b,
      afterTransform scp_GitUrlParse is_ipv4_literal
        sample_base_branch_same_push = Ok b
      /\ generateBranchUrl b = Some compare_path)
  /\ exists b,
      afterTransform scp_GitUrlParse is_ipv4_literal sample_stale_branch = Ok b
      /\ forgeType b = Some GitHub
      /\ generateBranchUrl b = Some branch_dest.
Proof.
  split.
  - eexists. split; [reflexivity|].
    destruct (generateBranchUrl_chosen scp_GitUrlParse is_ipv4_literal
                sample_base_branch_same_push _ sample_git_url
                eq_refl eq_refl) as (forge & Hforge & Hfresh & _).
    injection Hforge as <-. exact (Hfresh eq_refl).
  - eexists. split; [reflexivity|]. split; [reflexivity|].
    destruct (generateBranchUrl_chosen scp_GitUrlParse is_ipv4_literal
                sample_stale_branch _ sample_git_url
                eq_refl eq_refl) as (forge & _ & _ & Hkept).
    apply (Hkept branch_dest eq_refl). by right.
Defined.
